(** * SKU generation: the encoders, the composer and the record store of main.py

    A shallow embedding of [first_letters_of_words], [first_n_letters],
    [build_sku] and of the two routes [create_data] and [generate_sku],
    followed by the properties of the specification stated over them. *)

From Stdlib Require Import String Ascii ZArith NArith List Sorted Lia Bool.
Import ListNotations.
Open Scope Z_scope.

(** ** Python values *)

(** A Python [str] is a sequence of Unicode code points. *)
Definition char := N.
Definition str := list char.

(** ASCII literals of the source, as [str]. *)
Fixpoint lit (s : string) : str :=
  match s with
  | EmptyString => []
  | String a s' => N_of_ascii a :: lit s'
  end.

Definition underscore : char := 95%N.

(** Exceptions the modelled code can raise, and results of fallible code. *)
Inductive exn := IndexError | ValueError | TypeError | OverflowError.

Inductive result (A : Type) : Type :=
| Ok (a : A)
| Raise (e : exn).
Arguments Ok {A} a.
Arguments Raise {A} e.

Definition bind {A B} (m : result A) (k : A -> result B) : result B :=
  match m with
  | Ok a => k a
  | Raise e => Raise e
  end.

Notation "x <- m ;; k" := (bind m (fun x => k))
  (at level 61, m at next level, right associativity).

Module Py.

(** [len(s)]. *)
Definition len {A} (l : list A) : Z := Z.of_nat (length l).

(** Truth value of a string: [not s] holds exactly for the empty string. *)
Definition is_empty {A} (l : list A) : bool :=
  match l with
  | [] => true
  | _ :: _ => false
  end.

(** [str.isspace] on one code point: the characters of bidirectional type
    WS, B or S, or of category Zs. *)
Definition isspace (c : char) : bool :=
  ((9 <=? c) && (c <=? 13) || (28 <=? c) && (c <=? 32)
   || (c =? 133) || (c =? 160) || (c =? 5760)
   || (8192 <=? c) && (c <=? 8202)
   || (c =? 8232) || (c =? 8233) || (c =? 8239) || (c =? 8287)
   || (c =? 12288))%N.

Definition nonempty {A} (l : list A) : bool := negb (is_empty l).

Fixpoint lstrip (s : str) : str :=
  match s with
  | [] => []
  | c :: s' => if isspace c then lstrip s' else s
  end.

Definition rstrip (s : str) : str := rev (lstrip (rev s)).

(** [s.strip()]. *)
Definition strip (s : str) : str := rstrip (lstrip s).

(** [s.split()] without arguments: runs of whitespace separate the words
    and no empty word is produced.  [cur] is the word being read, kept
    reversed. *)
Fixpoint split_from (cur : str) (s : str) : list str :=
  match s with
  | [] => if is_empty cur then [] else [rev cur]
  | c :: s' =>
      if isspace c
      then (if is_empty cur then split_from [] s'
            else rev cur :: split_from [] s')
      else split_from (c :: cur) s'
  end.

Definition split (s : str) : list str := split_from [] s.

(** [s[:k]]: a negative bound counts from the end. *)
Definition slice_to {A} (s : list A) (k : Z) : list A :=
  if k <? 0 then firstn (Z.to_nat (len s + k)) s
  else firstn (Z.to_nat k) s.

(** [c * n] for a one-character string [c]: empty when [n <= 0]. *)
Definition times (c : char) (n : Z) : str := repeat c (Z.to_nat n).

(** [s.ljust(width, fill)]. *)
Definition ljust (s : str) (width : Z) (fill : char) : str :=
  if width <=? len s then s else s ++ times fill (width - len s).

(** [range(n)]. *)
Definition range (n : Z) : list Z := map Z.of_nat (seq 0 (Z.to_nat n)).

(** [''.join(l)]. *)
Definition join (l : list str) : str := concat l.

(** [s[0]]. *)
Definition index0 (s : str) : result char :=
  match s with
  | [] => Raise IndexError
  | c :: _ => Ok c
  end.

End Py.

(** ** The encoders and the composer *)

Section Encoder.

(** The full uppercase mapping of one code point, as [str.upper] applies
    it character by character; one code point may map to several. *)
Variable upper_char : char -> str.

(** [s.upper()]. *)
Definition upper (s : str) : str := flat_map upper_char s.

(** The body of the [for i in range(num_words)] loop: [out] with the
    group of word [i] appended. *)
Definition words_loop_body (parts : list str) (letters_each : Z)
    (out : list str) (i : Z) : list str :=
  if i <? Py.len parts then
    let part := nth (Z.to_nat i) parts [] in
    let take := upper (Py.slice_to part letters_each) in
    let take := Py.ljust take letters_each underscore in
    out ++ [take]
  else
    out ++ [Py.times underscore letters_each].

Definition first_letters_of_words (s : str) (num_words letters_each : Z) : str :=
  if Py.is_empty s then
    Py.join (map (fun _ => Py.times underscore letters_each) (Py.range num_words))
  else
    let parts :=
      filter (fun p => negb (Py.is_empty p)) (Py.split (Py.strip s)) in
    let out :=
      fold_left (words_loop_body parts letters_each) (Py.range num_words) [] in
    Py.join out.

Definition first_n_letters (s : str) (n : Z) : str :=
  if Py.is_empty s then Py.times underscore n
  else
    let s := upper (Py.strip s) in
    let out := Py.slice_to s n in
    if Py.len out <? n then Py.ljust out n underscore else out.

(** [size] is [None] or a string; [str(size)] of a string is the string. *)
Definition build_sku (product_type collection product_name color : str)
    (size : option str) : result str :=
  let pt := first_letters_of_words product_type 2 1 in
  let coll := first_letters_of_words collection 2 1 in
  let pname := first_n_letters product_name 3 in
  let col := first_letters_of_words color 2 1 in
  size_char <- match size with
               | Some sz => c <- Py.index0 sz ;; Ok [c]
               | None => Ok [underscore]
               end ;;
  let sku_body := pt ++ coll ++ pname ++ col in
  let sku_body :=
    if Py.len sku_body <? 9 then Py.ljust sku_body 9 underscore
    else if Py.len sku_body >? 9 then Py.slice_to sku_body 9
    else sku_body in
  Ok (sku_body ++ size_char).

End Encoder.

(** The uppercase mapping of Unicode on the code points up to U+00FF:
    a-z and the Latin-1 lowercase letters move to their capitals, the micro
    sign to capital mu, y with diaeresis to U+0178, and sharp s to the two
    letters SS.  Code points above U+00FF are outside this table, which leaves
    them as they are; the evaluations below stay within U+0000..U+00FF. *)
Definition upper_latin1 (c : char) : str :=
  (if (97 <=? c) && (c <=? 122) then [c - 32]
   else if c =? 181 then [924]
   else if c =? 223 then [83; 83]
   else if (224 <=? c) && (c <=? 254) && negb (c =? 247) then [c - 32]
   else if c =? 255 then [376]
   else [c])%N.

(** [int(s)] in base ten: surrounding whitespace, an optional sign, then
    decimal digits in which single underscores may separate digits; [None]
    stands for the [ValueError] of [int].  The whitespace [int] skips is tab
    to carriage return, the space, and the whitespace outside ASCII; the
    separators U+001C to U+001F, which [str.strip] removes, are no whitespace
    for [int].  A numeral of more than 4300 digits, the default of
    [sys.int_info.default_max_str_digits], is a [ValueError] too.  The
    decimal digits of other scripts, which [int] reads as well, are outside
    this parser; the table covers the code points up to U+00FF in full. *)
Definition int_isspace (c : char) : bool :=
  (Py.isspace c && negb ((28 <=? c) && (c <=? 31)))%N.

Definition int_max_str_digits : Z := 4300.

Fixpoint skip_spaces (s : str) : str :=
  match s with
  | [] => []
  | c :: s' => if int_isspace c then skip_spaces s' else s
  end.

Fixpoint digits_value (acc count : Z) (after_digit : bool) (s : str) : option Z :=
  match s with
  | [] => if after_digit && (count <=? int_max_str_digits) then Some acc else None
  | c :: s' =>
      if ((48 <=? c) && (c <=? 57))%N
      then digits_value (10 * acc + (Z.of_N c - 48)) (count + 1) true s'
      else if (c =? 95)%N
           then (if after_digit then digits_value acc count false s' else None)
           else None
  end.

Definition int_ascii (s : str) : option Z :=
  match rev (skip_spaces (rev (skip_spaces s))) with
  | [] => None
  | c :: s' =>
      if (c =? 45)%N then option_map Z.opp (digits_value 0 0 false s')
      else if (c =? 43)%N then digits_value 0 0 false s'
      else digits_value 0 0 false (c :: s')
  end.

(** ** The tables *)

(** ProductType, Collection and Color have the same three columns. *)
Module Vocab.
Record t := { id : Z; name : str; user_id : Z }.
End Vocab.

Module SKURecord.
Record t := { id : Z; sku : str; product_name : str; user_id : Z }.
End SKURecord.

Record DB := {
  product_types : list Vocab.t;
  collections : list Vocab.t;
  colors : list Vocab.t;
  sku_records : list SKURecord.t
}.

Definition empty_db : DB :=
  {| product_types := []; collections := []; colors := []; sku_records := [] |}.

(** The integer primary key given to a new row: one more than the largest
    key of the table. *)
Definition next_id (ids : list Z) : Z := 1 + fold_right Z.max 0 ids.

(** [db.session.add(Model(name=value, user_id=uid))] followed by the commit. *)
Definition add_vocab (table : list Vocab.t) (value : str) (uid : Z) : list Vocab.t :=
  table ++ [ {| Vocab.id := next_id (map Vocab.id table);
                Vocab.name := value;
                Vocab.user_id := uid |} ].

Definition add_sku_record (table : list SKURecord.t) (sku product_name : str)
    (uid : Z) : list SKURecord.t :=
  table ++ [ {| SKURecord.id := next_id (map SKURecord.id table);
                SKURecord.sku := sku;
                SKURecord.product_name := product_name;
                SKURecord.user_id := uid |} ].

(** [Model.query.filter_by(user_id=uid).all()]. *)
Definition filter_by_user (table : list Vocab.t) (uid : Z) : list Vocab.t :=
  filter (fun r => Vocab.user_id r =? uid) table.

(** The integers SQLite can bind as a query parameter: 64 bits, signed.  The
    database is SQLite, the default of [DATABASE_URL]; its driver raises
    OverflowError on a Python int outside this range. *)
Definition sqlite_integer (i : Z) : bool :=
  (- 2 ^ 63 <=? i) && (i <? 2 ^ 63).

(** [Model.query.filter_by(id=i, user_id=uid).first()]. *)
Definition first_by_id_user (table : list Vocab.t) (i uid : Z)
    : result (option Vocab.t) :=
  if sqlite_integer i
  then Ok (find (fun r => (Vocab.id r =? i) && (Vocab.user_id r =? uid)) table)
  else Raise OverflowError.

(** [order_by(SKURecord.id.desc())]. *)
Fixpoint insert_desc (r : SKURecord.t) (l : list SKURecord.t) : list SKURecord.t :=
  match l with
  | [] => [r]
  | x :: l' =>
      if SKURecord.id x <=? SKURecord.id r then r :: l
      else x :: insert_desc r l'
  end.

Definition order_by_id_desc (l : list SKURecord.t) : list SKURecord.t :=
  fold_right insert_desc [] l.

(** [SKURecord.query.filter_by(user_id=uid).order_by(SKURecord.id.desc()).limit(10).all()]. *)
Definition recent_sku_records (table : list SKURecord.t) (uid : Z) : list SKURecord.t :=
  firstn 10 (order_by_id_desc (filter (fun r => SKURecord.user_id r =? uid) table)).

(** ** Requests and responses *)

(** [request.form]: the submitted fields in order; [get] returns the first
    value of a key. *)
Definition Form := list (string * str).

Fixpoint form_get (form : Form) (key : string) : option str :=
  match form with
  | [] => None
  | (k, v) :: form' => if String.eqb k key then Some v else form_get form' key
  end.

Definition form_get_default (form : Form) (key : string) (default : str) : str :=
  match form_get form key with
  | Some v => v
  | None => default
  end.

Inductive Method := GET | POST (form : Form).

Inductive category := warning | danger | success.

Inductive Response :=
| Redirect (endpoint : string) (flashed : str) (cat : category)
| RenderCreateData (product_types collections colors : list Vocab.t)
    (sku_records : list SKURecord.t)
| RenderGenerateSku (product_types collections colors : list Vocab.t)
    (sizes : list str).

Definition str_eqb (a b : str) : bool :=
  if list_eq_dec N.eq_dec a b then true else false.

(** [what == literal], where [what] may be [None]. *)
Definition what_is (what : option str) (literal : string) : bool :=
  match what with
  | Some w => str_eqb w (lit literal)
  | None => false
  end.

(** The route [/create-data] for the logged-in user [uid]. *)
Definition create_data (uid : Z) (method : Method) (db : DB) : Response * DB :=
  match method with
  | POST form =>
      let what := form_get form "what" in
      let value := Py.strip (form_get_default form "value" []) in
      if Py.is_empty value then
        (Redirect "create_data" (lit "Please enter a value.") warning, db)
      else if what_is what "product_type" then
        (Redirect "create_data" (lit "Product Type added.") success,
         {| product_types := add_vocab (product_types db) value uid;
            collections := collections db;
            colors := colors db;
            sku_records := sku_records db |})
      else if what_is what "collection" then
        (Redirect "create_data" (lit "Collection added.") success,
         {| product_types := product_types db;
            collections := add_vocab (collections db) value uid;
            colors := colors db;
            sku_records := sku_records db |})
      else if what_is what "color" then
        (Redirect "create_data" (lit "Color added.") success,
         {| product_types := product_types db;
            collections := collections db;
            colors := add_vocab (colors db) value uid;
            sku_records := sku_records db |})
      else
        (Redirect "create_data" (lit "Unknown type") danger, db)
  | GET =>
      (RenderCreateData (filter_by_user (product_types db) uid)
         (filter_by_user (collections db) uid)
         (filter_by_user (colors db) uid)
         (recent_sku_records (sku_records db) uid),
       db)
  end.

(** The vocabulary entries and the SKU records a response carries. *)
Definition rendered_vocab (resp : Response) : list Vocab.t :=
  match resp with
  | RenderCreateData p c k _ => p ++ c ++ k
  | RenderGenerateSku p c k _ => p ++ c ++ k
  | Redirect _ _ _ => []
  end.

Definition rendered_records (resp : Response) : list SKURecord.t :=
  match resp with
  | RenderCreateData _ _ _ recs => recs
  | RenderGenerateSku _ _ _ _ => []
  | Redirect _ _ _ => []
  end.

Section Routes.

Variable upper_char : char -> str.

(** [int(s)] on a string: [Some i], or [None] for its [ValueError]. *)
Variable int_of_str : str -> option Z.

(** One of the three [try] blocks of [generate_sku]: the row chosen by the
    submitted id, [None] when no id was sent, when [int] raises its
    ValueError, which the [except] clause catches, or when no row of the user
    has that id.  The OverflowError of the query is no ValueError and no
    TypeError, so the block lets it through. *)
Definition resolve (table : list Vocab.t) (raw_id : option str) (uid : Z)
    : result (option Vocab.t) :=
  match raw_id with
  | Some s =>
      if Py.is_empty s then Ok None
      else match int_of_str s with
           | Some i => first_by_id_user table i uid
           | None => Ok None
           end
  | None => Ok None
  end.

(** The submitted id is a number that SQLite cannot bind. *)
Definition overflows (raw_id : option str) : bool :=
  match raw_id with
  | Some s =>
      if Py.is_empty s then false
      else match int_of_str s with
           | Some i => negb (sqlite_integer i)
           | None => false
           end
  | None => false
  end.

(** [row.name if row else '']. *)
Definition name_or_empty (row : option Vocab.t) : str :=
  match row with
  | Some r => Vocab.name r
  | None => []
  end.

(** A submitted id that names no usable entry of user [uid]: [int] rejects
    it, or no row has that id, or the row with that id is owned by someone
    else. *)
Inductive bad_reference (table : list Vocab.t) (uid : Z) : option str -> Prop :=
| not_well_formed (s : str) :
    int_of_str s = None -> bad_reference table uid (Some s)
| no_such_entry (s : str) (i : Z) :
    int_of_str s = Some i ->
    (forall r, In r table -> Vocab.id r <> i) ->
    bad_reference table uid (Some s)
| other_owner (s : str) (i : Z) (r : Vocab.t) :
    int_of_str s = Some i ->
    In r table -> Vocab.id r = i ->
    (forall r', In r' table -> Vocab.id r' = i -> Vocab.user_id r' <> uid) ->
    bad_reference table uid (Some s).

(** The route [/generate-sku] for the logged-in user [uid]; an exception
    leaves the request without response. *)
Definition generate_sku (uid : Z) (method : Method) (db : DB)
    : result (Response * DB) :=
  let product_types_ := filter_by_user (product_types db) uid in
  let collections_ := filter_by_user (collections db) uid in
  let colors_ := filter_by_user (colors db) uid in
  let sizes := [lit "1"; lit "2"; lit "3"; lit "4"] in
  match method with
  | POST form =>
      let product_name_text := Py.strip (form_get_default form "product_name" []) in
      let ptype_id := form_get form "product_type" in
      let coll_id := form_get form "collection" in
      let color_id := form_get form "color" in
      let size := form_get form "size" in
      if Py.is_empty product_name_text then
        Ok (Redirect "generate_sku" (lit "Please enter Product Name (type it).") warning,
            db)
      else
        ptype <- resolve (product_types db) ptype_id uid ;;
        coll <- resolve (collections db) coll_id uid ;;
        color <- resolve (colors db) color_id uid ;;
        let ptype_text := name_or_empty ptype in
        let coll_text := name_or_empty coll in
        let color_text := name_or_empty color in
        sku <- build_sku upper_char ptype_text coll_text product_name_text
                 color_text size ;;
        Ok (Redirect "create_data" (lit "SKU generated: " ++ sku) success,
            {| product_types := product_types db;
               collections := collections db;
               colors := colors db;
               sku_records :=
                 add_sku_record (sku_records db) sku product_name_text uid |})
  | GET =>
      Ok (RenderGenerateSku product_types_ collections_ colors_ sizes, db)
  end.

(** ** Runs of the application *)

Inductive Request :=
| CreateData (method : Method)
| GenerateSku (method : Method).

(** The store after user [uid] made request [req]; a request that raises
    commits nothing. *)
Definition store_after (uid : Z) (req : Request) (db : DB) : DB :=
  match req with
  | CreateData m => snd (create_data uid m db)
  | GenerateSku m =>
      match generate_sku uid m db with
      | Ok (_, db') => db'
      | Raise _ => db
      end
  end.

(** What the two pages show to user [uid] on a GET. *)
Definition pages_of (uid : Z) (db : DB) : list Response :=
  fst (create_data uid GET db)
  :: match generate_sku uid GET db with
     | Ok (page, _) => [page]
     | Raise _ => []
     end.

Fixpoint run (trace : list (Z * Request)) (db : DB) : DB :=
  match trace with
  | [] => db
  | (uid, req) :: trace' => run trace' (store_after uid req db)
  end.

Definition reachable (db : DB) : Prop :=
  exists trace, db = run trace empty_db.

End Routes.

(** ** The algorithms as the specification words them *)

Module Spec.

Definition pad : char := underscore.

(** Trimming: leading whitespace is dropped, then trailing whitespace. *)
Definition drop_trailing (s : str) : str :=
  fold_right
    (fun c rest => if Py.isspace c && Py.is_empty rest then [] else c :: rest)
    [] s.

Definition trim (s : str) : str := drop_trailing (Py.lstrip s).

(** The tokens between whitespace characters, empty ones included. *)
Fixpoint tokens (s : str) : list str :=
  match s with
  | [] => [[]]
  | c :: s' =>
      if Py.isspace c then [] :: tokens s'
      else match tokens s' with
           | t :: ts => (c :: t) :: ts
           | [] => [[c]]
           end
  end.

(** Split the trimmed label on whitespace, discarding empty tokens. *)
Definition words (label : str) : list str :=
  filter Py.nonempty (tokens (trim label)).

(** Right-pad to a width; a string already that long is left alone. *)
Definition rpad (s : str) (width : nat) : str :=
  s ++ repeat pad (width - length s).

Section WithUpper.

Variable upper_char : char -> str.

(** The group emitted for word index [i]. *)
Definition group (lettersEach : nat) (word : option str) : str :=
  match word with
  | Some w => rpad (upper upper_char (firstn lettersEach w)) lettersEach
  | None => repeat pad lettersEach
  end.

Definition encode_words (label : str) (wordCount lettersEach : nat) : str :=
  let ws := words label in
  match label, ws with
  | [], _ | _, [] => concat (repeat (repeat pad lettersEach) wordCount)
  | _, _ =>
      concat (map (fun i => group lettersEach (nth_error ws i))
                (seq 0 wordCount))
  end.

Definition encode_prefix (label : str) (n : nat) : str :=
  match trim label with
  | [] => repeat pad n
  | t => rpad (firstn n (upper upper_char t)) n
  end.

(** The body normalised to nine characters. *)
Definition normalise (body : str) : str :=
  if (length body <? 9)%nat then rpad body 9
  else if (9 <? length body)%nat then firstn 9 body
  else body.

(** The size character: the first character of the size text, [pad]
    when the size is absent; there is none when the text has no first
    character. *)
Definition size_character (size : option str) : option char :=
  match size with
  | None => Some pad
  | Some text => hd_error text
  end.

Definition compose_sku (productType collection productName color : str)
    (size : option str) : option str :=
  let body :=
    encode_words productType 2 1 ++ encode_words collection 2 1
    ++ encode_prefix productName 3 ++ encode_words color 2 1 in
  option_map (fun c => normalise body ++ [c]) (size_character size).

End WithUpper.

End Spec.

(** The value of a result, when there is one. *)
Definition value_of {A} (r : result A) : option A :=
  match r with
  | Ok a => Some a
  | Raise _ => None
  end.

(** [len(r)] of a returned string; nothing when the call raised. *)
Definition len_of (r : result str) : option Z := option_map Py.len (value_of r).

(** The three vocabularies of [create_data] and the form value naming each. *)
Inductive Vocabulary := product_type | collection | color.

Definition what_of (v : Vocabulary) : string :=
  match v with
  | product_type => "product_type"
  | collection => "collection"
  | color => "color"
  end.

Definition table_of (v : Vocabulary) (db : DB) : list Vocab.t :=
  match v with
  | product_type => product_types db
  | collection => collections db
  | color => colors db
  end.

(** ** Accounts and sessions *)

Module User.
Record t := { id : Z; email : str; password_hash : str }.
End User.

(** The user table and the session of the browser: the id of the user that
    [login_user] was last given, if any. *)
Record Accounts := { users : list User.t; session : option Z }.

(** What an account route answers: a redirect or a rendered template, with
    the messages flashed on the way. *)
Inductive Page :=
| Redirected (endpoint : string) (flashed : list (str * category))
| Rendered (template : string) (flashed : list (str * category)).

(** WTForms' [DataRequired] on the data of a string field: the data is there,
    is not empty and is not whitespace only. *)
Definition DataRequired (data : option str) : bool :=
  match data with
  | Some s => negb (Py.is_empty s) && negb (Py.is_empty (Py.strip s))
  | None => false
  end.

(** WTForms' [Length(min, max)], [-1] standing for no bound: the length of
    missing data counts as zero. *)
Definition Length (min max : Z) (data : option str) : bool :=
  let length := match data with
                | Some s => Py.len s
                | None => 0
                end in
  (min <=? length) && ((max =? -1) || (length <=? max)).

Section Auth.

(** [str.lower]. *)
Variable lower : str -> str.

(** werkzeug's [generate_password_hash], which draws a salt, and
    [check_password_hash]. *)
Variable Salt : Type.
Variable generate_password_hash : Salt -> str -> str.
Variable check_password_hash : str -> str -> bool.

(** Flask-WTF's check of the CSRF token a form carries. *)
Variable csrf_valid : Form -> bool.

Variable int_of_str : str -> option Z.

Definition set_password (u : User.t) (salt : Salt) (pwd : str) : User.t :=
  {| User.id := User.id u;
     User.email := User.email u;
     User.password_hash := generate_password_hash salt pwd |}.

Definition check_password (u : User.t) (pwd : str) : bool :=
  check_password_hash (User.password_hash u) pwd.

(** [form.validate_on_submit()] of [LoginForm] and of [RegisterForm]: a POST
    whose token is valid and whose fields pass their validators. *)
Definition LoginForm_validate_on_submit (method : Method) : bool :=
  match method with
  | POST form =>
      csrf_valid form
      && (DataRequired (form_get form "email")
          && Length (-1) 150 (form_get form "email"))
      && DataRequired (form_get form "password")
  | GET => false
  end.

Definition RegisterForm_validate_on_submit (method : Method) : bool :=
  match method with
  | POST form =>
      csrf_valid form
      && (DataRequired (form_get form "email")
          && Length (-1) 150 (form_get form "email"))
      && (DataRequired (form_get form "password")
          && Length 6 (-1) (form_get form "password"))
  | GET => false
  end.

(** [form.<field>.data] of a validated form, where [DataRequired] has made
    sure the data is there. *)
Definition field_data (method : Method) (name : string) : str :=
  match method with
  | POST form => form_get_default form name []
  | GET => []
  end.

(** [User.query.filter_by(email=e).first()]. *)
Definition first_by_email (table : list User.t) (e : str) : option User.t :=
  find (fun u => str_eqb (User.email u) e) table.

(** [User.query.get(i)] for an id that SQLite can bind. *)
Definition get_user (table : list User.t) (i : Z) : option User.t :=
  find (fun u => User.id u =? i) table.

(** [load_user(user_id)]: [int] raises ValueError on an id that is no
    number, and the query raises OverflowError on a number that SQLite
    cannot bind. *)
Definition load_user (table : list User.t) (user_id : str) : result (option User.t) :=
  match int_of_str user_id with
  | Some i => if sqlite_integer i then Ok (get_user table i) else Raise OverflowError
  | None => Raise ValueError
  end.

(** [current_user.is_authenticated]: the session names a user of the table. *)
Definition is_authenticated (st : Accounts) : bool :=
  match session st with
  | Some i => match get_user (users st) i with
              | Some _ => true
              | None => false
              end
  | None => false
  end.

(** The route [/]. *)
Definition index (st : Accounts) : Page :=
  if is_authenticated st then Redirected "create_data" []
  else Redirected "login" [].

(** The route [/register]; [salt] is what [generate_password_hash] draws. *)
Definition register (salt : Salt) (method : Method) (st : Accounts)
    : Page * Accounts :=
  if RegisterForm_validate_on_submit method then
    let existing := first_by_email (users st) (lower (field_data method "email")) in
    match existing with
    | Some _ =>
        (Redirected "login" [(lit "User already exists. Please login.", warning)], st)
    | None =>
        let u := {| User.id := next_id (map User.id (users st));
                    User.email := lower (field_data method "email");
                    User.password_hash := [] |} in
        let u := set_password u salt (field_data method "password") in
        (Redirected "create_data" [(lit "Registered and logged in.", success)],
         {| users := users st ++ [u]; session := Some (User.id u) |})
    end
  else (Rendered "register.html" [], st).

(** The route [/login]. *)
Definition login (method : Method) (st : Accounts) : Page * Accounts :=
  if LoginForm_validate_on_submit method then
    let u := first_by_email (users st) (lower (field_data method "email")) in
    match u with
    | Some user =>
        if check_password user (field_data method "password") then
          (Redirected "create_data" [(lit "Logged in.", success)],
           {| users := users st; session := Some (User.id user) |})
        else (Rendered "login.html" [(lit "Invalid credentials.", danger)], st)
    | None => (Rendered "login.html" [(lit "Invalid credentials.", danger)], st)
    end
  else (Rendered "login.html" [], st).

(** The route [/logout] for a logged-in browser; what Flask-Login answers
    to an anonymous one is [unauthorized]. *)
Variable unauthorized : Page.

Definition logout (st : Accounts) : Page * Accounts :=
  if is_authenticated st then
    (Redirected "login" [], {| users := users st; session := None |})
  else (unauthorized, st).

Inductive AccountRequest :=
| Register (salt : Salt) (method : Method)
| Login (method : Method)
| Logout
| Index.

Definition accounts_after (req : AccountRequest) (st : Accounts) : Accounts :=
  match req with
  | Register salt method => snd (register salt method st)
  | Login method => snd (login method st)
  | Logout => snd (logout st)
  | Index => st
  end.

Fixpoint accounts_run (trace : list AccountRequest) (st : Accounts) : Accounts :=
  match trace with
  | [] => st
  | req :: trace' => accounts_run trace' (accounts_after req st)
  end.

Definition no_accounts : Accounts := {| users := []; session := None |}.

Definition accounts_reachable (st : Accounts) : Prop :=
  exists trace, st = accounts_run trace no_accounts.

End Auth.

Arguments Register {Salt} salt method.
Arguments Login {Salt} method.
Arguments Logout {Salt}.
Arguments Index {Salt}.
Arguments set_password {Salt} generate_password_hash u salt pwd.
Arguments register lower {Salt} generate_password_hash csrf_valid salt method st.
Arguments accounts_after lower {Salt} generate_password_hash check_password_hash
  csrf_valid unauthorized req st.
Arguments accounts_run lower {Salt} generate_password_hash check_password_hash
  csrf_valid unauthorized trace st.
Arguments accounts_reachable lower {Salt} generate_password_hash check_password_hash
  csrf_valid unauthorized st.

(** A concrete setting for evaluations: ASCII lowercasing, a hash that
    records salt and password, and a token field that must read "ok". *)
Definition lower_ascii (s : str) : str :=
  map (fun c => if ((65 <=? c) && (c <=? 90))%N then (c + 32)%N else c) s.

Definition toy_hash (salt : str) (pwd : str) : str := salt ++ lit "$" ++ pwd.

Definition toy_check (hash pwd : str) : bool :=
  str_eqb (skipn (length hash - length pwd) hash) pwd.

Definition toy_csrf (form : Form) : bool :=
  match form_get form "csrf_token" with
  | Some t => str_eqb t (lit "ok")
  | None => false
  end.

Definition ann_form : Form :=
  [("csrf_token"%string, lit "ok"); ("email"%string, lit "Ann@Example.com");
   ("password"%string, lit "secret1")].

Definition ann_login_form : Form :=
  [("csrf_token"%string, lit "ok"); ("email"%string, lit "ann@example.COM");
   ("password"%string, lit "secret1")].

(** ** A sample run

    User 2 adds the product type "Shirt", user 1 the color "Blue"; user 2
    then generates a SKU with that product type, and user 1 sends a request
    naming user 2's product type, a collection id that is no number and a
    color id that no row has. *)
Definition blue_form : Form :=
  [("what"%string, lit "color"); ("value"%string, lit "Blue")].

Definition sample_setup : list (Z * Request) :=
  [(2, CreateData
         (POST [("what"%string, lit "product_type"); ("value"%string, lit " Shirt ")]));
   (1, CreateData (POST blue_form))].

Definition sample_form : Form :=
  [("product_name"%string, lit " Polo"); ("product_type"%string, lit "1");
   ("collection"%string, lit "x1"); ("color"%string, lit "9");
   ("size"%string, lit "3")].

(** A request whose product type id is 2^63, one more than SQLite's largest
    integer. *)
Definition out_of_range_form : Form :=
  [("product_name"%string, lit "Polo");
   ("product_type"%string, lit "9223372036854775808");
   ("size"%string, lit "3")].

Definition sample_db : DB := run upper_latin1 int_ascii sample_setup empty_db.

Definition sample_later : list (Z * Request) :=
  [(2, GenerateSku
         (POST [("product_name"%string, lit "Polo"); ("product_type"%string, lit "1");
                ("size"%string, lit "3")]));
   (1, GenerateSku (POST sample_form))].

(** * Properties *)

(** ** Python string primitives *)

Lemma is_empty_true {A} (l : list A) : Py.is_empty l = true <-> l = [].
Proof. destruct l; simpl; split; congruence. Qed.

Lemma is_empty_rev {A} (l : list A) : Py.is_empty (rev l) = Py.is_empty l.
Proof.
  destruct l as [|a l]; simpl; [reflexivity|].
  destruct (rev l); reflexivity.
Qed.

Lemma lstrip_snoc (l : str) (c : char) :
  Py.lstrip (l ++ [c]) =
  if Py.is_empty (Py.lstrip l)
  then (if Py.isspace c then [] else [c])
  else Py.lstrip l ++ [c].
Proof.
  induction l as [|a l IH]; simpl.
  - reflexivity.
  - destruct (Py.isspace a); [exact IH | reflexivity].
Qed.

Lemma rstrip_drop_trailing (s : str) : Py.rstrip s = Spec.drop_trailing s.
Proof.
  unfold Py.rstrip.
  induction s as [|c s IH]; simpl; [reflexivity|].
  rewrite lstrip_snoc, <- IH, is_empty_rev.
  destruct (Py.is_empty (Py.lstrip (rev s))) eqn:E.
  - apply is_empty_true in E. rewrite E. simpl.
    rewrite andb_true_r. destruct (Py.isspace c); reflexivity.
  - rewrite andb_false_r, rev_app_distr. reflexivity.
Qed.

Lemma strip_trim (s : str) : Py.strip s = Spec.trim s.
Proof. unfold Py.strip, Spec.trim. apply rstrip_drop_trailing. Qed.

Lemma tokens_cons (s : str) : exists t ts, Spec.tokens s = t :: ts.
Proof.
  destruct s as [|c s]; simpl; [eauto|].
  destruct (Py.isspace c); [eauto|].
  destruct (Spec.tokens s); eauto.
Qed.

Lemma split_from_tokens (s cur : str) :
  Py.split_from cur s =
  match Spec.tokens s with
  | t :: ts => filter Py.nonempty ((rev cur ++ t) :: ts)
  | [] => []
  end.
Proof.
  revert cur. induction s as [|c s IH]; intros cur; simpl.
  - rewrite app_nil_r. unfold Py.nonempty. rewrite is_empty_rev.
    destruct (Py.is_empty cur); reflexivity.
  - destruct (tokens_cons s) as (t & ts & E).
    destruct (Py.isspace c).
    + rewrite app_nil_r. unfold Py.nonempty at 1. rewrite is_empty_rev.
      rewrite (IH []), E. simpl.
      destruct (Py.is_empty cur); reflexivity.
    + rewrite IH, E. simpl. rewrite <- app_assoc. reflexivity.
Qed.

Lemma split_tokens (s : str) : Py.split s = filter Py.nonempty (Spec.tokens s).
Proof.
  unfold Py.split. rewrite split_from_tokens.
  destruct (Spec.tokens s); reflexivity.
Qed.

Lemma filter_idem {A} (f : A -> bool) (l : list A) :
  filter f (filter f l) = filter f l.
Proof.
  induction l as [|a l IH]; simpl; [reflexivity|].
  destruct (f a) eqn:E; simpl; rewrite ?E, IH; reflexivity.
Qed.

Lemma parts_words (s : str) :
  filter (fun p => negb (Py.is_empty p)) (Py.split (Py.strip s)) = Spec.words s.
Proof.
  unfold Spec.words. rewrite strip_trim, split_tokens.
  apply filter_idem.
Qed.

Lemma slice_to_firstn {A} (s : list A) (k : Z) :
  0 <= k -> Py.slice_to s k = firstn (Z.to_nat k) s.
Proof.
  intros H. unfold Py.slice_to.
  destruct (k <? 0) eqn:E; [apply Z.ltb_lt in E; lia | reflexivity].
Qed.

Lemma ljust_rpad (s : str) (width : Z) :
  Py.ljust s width underscore = Spec.rpad s (Z.to_nat width).
Proof.
  unfold Py.ljust, Spec.rpad, Py.times, Py.len, Spec.pad.
  destruct (width <=? Z.of_nat (length s)) eqn:E.
  - apply Z.leb_le in E.
    replace (Z.to_nat width - length s)%nat with 0%nat by lia.
    simpl. rewrite app_nil_r. reflexivity.
  - f_equal. f_equal. lia.
Qed.

Lemma rpad_length (s : str) (width : nat) :
  (length s <= width)%nat -> length (Spec.rpad s width) = width.
Proof.
  intros H. unfold Spec.rpad. rewrite length_app, repeat_length. lia.
Qed.

Lemma map_const_repeat {A B} (b : B) (l : list A) :
  map (fun _ => b) l = repeat b (length l).
Proof. induction l; simpl; congruence. Qed.

Lemma range_length (n : Z) : length (Py.range n) = Z.to_nat n.
Proof. unfold Py.range. rewrite length_map, length_seq. reflexivity. Qed.

(** ** The encoders against the specified algorithms *)

Section EncoderFacts.

Variable upper_char : char -> str.

(** The group the loop body appends for index [i]. *)
Lemma words_loop_body_group (parts : list str) (letters_each : Z)
    (out : list str) (i : nat) :
  0 <= letters_each ->
  words_loop_body upper_char parts letters_each out (Z.of_nat i) =
  out ++ [Spec.group upper_char (Z.to_nat letters_each) (nth_error parts i)].
Proof.
  intros Hle. unfold words_loop_body, Py.len.
  destruct (Z.of_nat i <? Z.of_nat (length parts)) eqn:E.
  - apply Z.ltb_lt in E.
    assert (Hi : (i < length parts)%nat) by lia.
    rewrite Nat2Z.id, (nth_error_nth' parts [] Hi). simpl.
    rewrite ljust_rpad, slice_to_firstn by assumption. reflexivity.
  - apply Z.ltb_ge in E.
    assert (Hi : (length parts <= i)%nat) by lia.
    apply nth_error_None in Hi. rewrite Hi. reflexivity.
Qed.

Lemma words_loop (parts : list str) (letters_each : Z) (l : list nat)
    (out : list str) :
  0 <= letters_each ->
  fold_left (words_loop_body upper_char parts letters_each)
    (map Z.of_nat l) out =
  out ++ map (fun i => Spec.group upper_char (Z.to_nat letters_each)
                         (nth_error parts i)) l.
Proof.
  intros Hle. revert out.
  induction l as [|i l IH]; intros out; simpl.
  - rewrite app_nil_r. reflexivity.
  - rewrite words_loop_body_group, IH, <- app_assoc by assumption.
    reflexivity.
Qed.

Lemma first_letters_of_words_spec (s : str) (num_words letters_each : Z) :
  0 <= letters_each ->
  first_letters_of_words upper_char s num_words letters_each =
  Spec.encode_words upper_char s (Z.to_nat num_words) (Z.to_nat letters_each).
Proof.
  intros Hle. unfold first_letters_of_words, Spec.encode_words, Py.join.
  destruct s as [|c s]; simpl Py.is_empty; cbv iota.
  - rewrite map_const_repeat, range_length. reflexivity.
  - rewrite parts_words. unfold Py.range.
    rewrite words_loop by assumption. simpl app.
    destruct (Spec.words (c :: s)) as [|w ws] eqn:E; [|reflexivity].
    rewrite (map_ext _ (fun _ => repeat Spec.pad (Z.to_nat letters_each))).
    * rewrite map_const_repeat, length_seq. reflexivity.
    * intros i. destruct i; reflexivity.
Qed.

Lemma upper_nil : upper upper_char [] = [].
Proof. reflexivity. Qed.

Lemma first_n_letters_spec (s : str) (n : Z) :
  0 <= n ->
  first_n_letters upper_char s n = Spec.encode_prefix upper_char s (Z.to_nat n).
Proof.
  intros Hn. unfold first_n_letters, Spec.encode_prefix.
  destruct s as [|c s]; simpl Py.is_empty; cbv iota.
  - reflexivity.
  - rewrite strip_trim, slice_to_firstn by assumption.
    set (t := Spec.trim (c :: s)).
    assert (E : (if Py.len (firstn (Z.to_nat n) (upper upper_char t)) <? n
                 then Py.ljust (firstn (Z.to_nat n) (upper upper_char t)) n underscore
                 else firstn (Z.to_nat n) (upper upper_char t))
                = Spec.rpad (firstn (Z.to_nat n) (upper upper_char t)) (Z.to_nat n)).
    { destruct (Py.len _ <? n) eqn:E; [apply ljust_rpad|].
      apply Z.ltb_ge in E. unfold Py.len in E. unfold Spec.rpad.
      replace (Z.to_nat n - length (firstn (Z.to_nat n) (upper upper_char t)))%nat
        with 0%nat by lia.
      simpl. rewrite app_nil_r. reflexivity. }
    rewrite E. destruct t; [|reflexivity].
    simpl. rewrite firstn_nil. unfold Spec.rpad. simpl.
    rewrite Nat.sub_0_r. reflexivity.
Qed.

Lemma encode_prefix_length (s : str) (n : nat) :
  length (Spec.encode_prefix upper_char s n) = n.
Proof.
  unfold Spec.encode_prefix.
  destruct (Spec.trim s).
  - apply repeat_length.
  - apply rpad_length. rewrite length_firstn. lia.
Qed.

Lemma normalise_spec (body : str) :
  (if Py.len body <? 9 then Py.ljust body 9 underscore
   else if Py.len body >? 9 then Py.slice_to body 9
   else body) = Spec.normalise body.
Proof.
  unfold Spec.normalise, Py.len.
  destruct (Z.of_nat (length body) <? 9) eqn:E1.
  - apply Z.ltb_lt in E1.
    destruct (Nat.ltb_spec (length body) 9); [|lia].
    apply (ljust_rpad body 9).
  - apply Z.ltb_ge in E1.
    destruct (Nat.ltb_spec (length body) 9); [lia|].
    rewrite Z.gtb_ltb.
    destruct (9 <? Z.of_nat (length body)) eqn:E2.
    + apply Z.ltb_lt in E2.
      destruct (Nat.ltb_spec 9 (length body)); [|lia].
      apply (slice_to_firstn body 9). lia.
    + apply Z.ltb_ge in E2.
      destruct (Nat.ltb_spec 9 (length body)); [lia|reflexivity].
Qed.

Lemma normalise_length (body : str) : length (Spec.normalise body) = 9%nat.
Proof.
  unfold Spec.normalise.
  destruct (Nat.ltb_spec (length body) 9).
  - apply rpad_length. lia.
  - destruct (Nat.ltb_spec 9 (length body)).
    + rewrite length_firstn. lia.
    + lia.
Qed.

Lemma build_sku_spec (product_type collection product_name color : str)
    (size : option str) :
  value_of (build_sku upper_char product_type collection product_name color size) =
  Spec.compose_sku upper_char product_type collection product_name color size.
Proof.
  unfold build_sku, Spec.compose_sku.
  rewrite normalise_spec.
  rewrite !(first_letters_of_words_spec _ 2 1), (first_n_letters_spec _ 3) by lia.
  change (Z.to_nat 2) with 2%nat. change (Z.to_nat 1) with 1%nat.
  change (Z.to_nat 3) with 3%nat.
  destruct size as [[|c sz]|]; reflexivity.
Qed.

(** With a size that is absent or has a first character, [build_sku]
    returns, and what it returns has ten characters. *)
Lemma build_sku_returns (product_type collection product_name color : str)
    (size : option str) :
  size <> Some [] ->
  exists sku,
    build_sku upper_char product_type collection product_name color size = Ok sku
    /\ Py.len sku = 10.
Proof.
  intros Hsize. unfold build_sku. rewrite normalise_spec.
  set (body := Spec.normalise _).
  assert (Hb : length body = 9%nat) by apply normalise_length.
  destruct size as [[|c sz]|]; [exfalso; apply Hsize; reflexivity| |]; simpl;
    eexists; (split; [reflexivity|]);
    unfold Py.len; rewrite length_app, Hb; reflexivity.
Qed.

End EncoderFacts.

(** ** Width and characters of the encoded words *)

Lemma in_firstn {A} (n : nat) (l : list A) (x : A) : In x (firstn n l) -> In x l.
Proof.
  intros H. rewrite <- (firstn_skipn n l). apply in_or_app. left. exact H.
Qed.

Lemma in_lstrip (s : str) (c : char) : In c (Py.lstrip s) -> In c s.
Proof.
  induction s as [|a s IH]; simpl; [tauto|].
  destruct (Py.isspace a); simpl; tauto.
Qed.

Lemma in_drop_trailing (s : str) (c : char) : In c (Spec.drop_trailing s) -> In c s.
Proof.
  induction s as [|a s IH]; simpl; [tauto|].
  destruct (Py.isspace a && Py.is_empty (Spec.drop_trailing s)); simpl; tauto.
Qed.

Lemma in_tokens (s t : str) (c : char) : In t (Spec.tokens s) -> In c t -> In c s.
Proof.
  revert t. induction s as [|a s IH]; intros t Ht Hc; simpl in Ht.
  - destruct Ht as [<-|[]]. exact Hc.
  - destruct (Py.isspace a).
    + destruct Ht as [<-|Ht]; [destruct Hc|]. right. eapply IH; eassumption.
    + destruct (Spec.tokens s) as [|t' ts].
      * destruct Ht as [<-|[]]. destruct Hc as [<-|[]]. left. reflexivity.
      * destruct Ht as [<-|Ht].
        -- destruct Hc as [<-|Hc]; [left; reflexivity|].
           right. apply (IH t'); [left; reflexivity | exact Hc].
        -- right. apply (IH t); [right; exact Ht | exact Hc].
Qed.

Lemma in_words (label w : str) (c : char) :
  In w (Spec.words label) -> In c w -> In c label.
Proof.
  unfold Spec.words, Spec.trim. intros Hw Hc.
  apply filter_In in Hw. destruct Hw as [Hw _].
  apply in_lstrip, in_drop_trailing. eapply in_tokens; eassumption.
Qed.

Lemma concat_constant_length {A} (k : nat) (l : list (list A)) :
  (forall x, In x l -> length x = k) -> length (concat l) = (length l * k)%nat.
Proof.
  induction l as [|x l IH]; intros H; simpl; [reflexivity|].
  rewrite length_app, IH, (H x).
  - reflexivity.
  - left. reflexivity.
  - intros y Hy. apply H. right. exact Hy.
Qed.

Lemma encode_words_cases (upper_char : char -> str) (label : str)
    (wordCount lettersEach : nat) :
  Spec.encode_words upper_char label wordCount lettersEach
  = concat (repeat (repeat Spec.pad lettersEach) wordCount)
  \/ Spec.encode_words upper_char label wordCount lettersEach
     = concat (map (fun i => Spec.group upper_char lettersEach
                               (nth_error (Spec.words label) i))
                 (seq 0 wordCount)).
Proof.
  unfold Spec.encode_words.
  destruct label; [left; reflexivity|].
  destruct (Spec.words _); [left|right]; reflexivity.
Qed.

Section Width.

Variable upper_char : char -> str.
Variable label : str.
Hypothesis single : forall a, In a label -> length (upper_char a) = 1%nat.

Lemma upper_single_length (s : str) :
  (forall a, In a s -> In a label) ->
  length (upper upper_char s) = length s.
Proof.
  intros Hs. unfold upper.
  rewrite (flat_map_constant_length (c := 1)); [lia|].
  intros a Ha. apply single, Hs, Ha.
Qed.

Lemma group_length (lettersEach : nat) (word : option str) :
  (forall w, word = Some w -> In w (Spec.words label)) ->
  length (Spec.group upper_char lettersEach word) = lettersEach.
Proof.
  intros Hw. destruct word as [w|]; simpl; [|apply repeat_length].
  apply rpad_length. rewrite upper_single_length.
  - rewrite length_firstn. lia.
  - intros a Ha. apply (in_words label w); [apply Hw; reflexivity|].
    eapply in_firstn; eassumption.
Qed.

Lemma encode_words_length (wordCount lettersEach : nat) :
  length (Spec.encode_words upper_char label wordCount lettersEach)
  = (wordCount * lettersEach)%nat.
Proof.
  assert (Hpads : length (concat (repeat (repeat Spec.pad lettersEach) wordCount))
                  = (wordCount * lettersEach)%nat).
  { rewrite (concat_constant_length lettersEach), repeat_length; [reflexivity|].
    intros x Hx. apply repeat_spec in Hx. subst x. apply repeat_length. }
  destruct (encode_words_cases upper_char label wordCount lettersEach)
    as [E|E]; rewrite E; [exact Hpads|].
  rewrite (concat_constant_length lettersEach), length_map, length_seq;
    [reflexivity|].
  intros x Hx. apply in_map_iff in Hx. destruct Hx as (i & <- & _).
  apply group_length. intros w' Hw'. eapply nth_error_In; eassumption.
Qed.

Lemma group_chars (lettersEach : nat) (word : option str) (c : char) :
  (forall w, word = Some w -> In w (Spec.words label)) ->
  In c (Spec.group upper_char lettersEach word) ->
  c = underscore \/ exists a, In a label /\ upper_char a = [c].
Proof.
  intros Hw Hc. destruct word as [w|]; simpl in Hc.
  - unfold Spec.rpad in Hc. apply in_app_or in Hc. destruct Hc as [Hc|Hc].
    + right. apply in_flat_map in Hc. destruct Hc as (a & Ha & Hc).
      assert (Hl : In a label).
      { apply (in_words label w); [apply Hw; reflexivity|].
        eapply in_firstn; eassumption. }
      exists a. split; [exact Hl|].
      specialize (single a Hl).
      destruct (upper_char a) as [|b [|? ?]]; try discriminate.
      destruct Hc as [<-|[]]. reflexivity.
    + left. apply repeat_spec in Hc. exact Hc.
  - left. apply repeat_spec in Hc. exact Hc.
Qed.

Lemma encode_words_chars (wordCount lettersEach : nat) (c : char) :
  In c (Spec.encode_words upper_char label wordCount lettersEach) ->
  c = underscore \/ exists a, In a label /\ upper_char a = [c].
Proof.
  assert (Hpads : In c (concat (repeat (repeat Spec.pad lettersEach) wordCount))
                  -> c = underscore).
  { intros Hc. apply in_concat in Hc. destruct Hc as (x & Hx & Hc).
    apply repeat_spec in Hx. subst x. apply repeat_spec in Hc. exact Hc. }
  destruct (encode_words_cases upper_char label wordCount lettersEach)
    as [E|E]; rewrite E; [auto|].
  intros Hc. apply in_concat in Hc. destruct Hc as (x & Hx & Hc).
  apply in_map_iff in Hx. destruct Hx as (i & <- & _).
  apply group_chars in Hc; [exact Hc|].
  intros w' Hw'. eapply nth_error_In; eassumption.
Qed.

End Width.

(** ** Width zero *)

Lemma concat_all_nil {A} (l : list (list A)) :
  (forall x, In x l -> x = []) -> concat l = [].
Proof.
  induction l as [|x l IH]; intros H; simpl; [reflexivity|].
  rewrite (H x), IH.
  - reflexivity.
  - intros y Hy. apply H. right. exact Hy.
  - left. reflexivity.
Qed.

Lemma encode_words_zero_letters (upper_char : char -> str) (label : str)
    (wordCount : nat) :
  Spec.encode_words upper_char label wordCount 0 = [].
Proof.
  assert (Hpads : concat (repeat (repeat Spec.pad 0) wordCount) = []).
  { apply concat_all_nil. intros x Hx. apply repeat_spec in Hx. exact Hx. }
  unfold Spec.encode_words.
  destruct label; [exact Hpads|].
  destruct (Spec.words _); [exact Hpads|].
  apply concat_all_nil. intros x Hx.
  apply in_map_iff in Hx. destruct Hx as (i & <- & _).
  destruct (nth_error _ i); reflexivity.
Qed.

(** Only the first [wordCount] words of a label reach the output. *)
Lemma encode_words_first_words (upper_char : char -> str) (label : str)
    (wordCount lettersEach : nat) :
  Spec.encode_words upper_char label wordCount lettersEach =
  concat (map (fun i => Spec.group upper_char lettersEach
                          (nth_error (firstn wordCount (Spec.words label)) i))
            (seq 0 wordCount)).
Proof.
  assert (Hpads : forall ws, ws = [] ->
            concat (repeat (repeat Spec.pad lettersEach) wordCount) =
            concat (map (fun i => Spec.group upper_char lettersEach
                                    (nth_error (firstn wordCount ws) i))
                      (seq 0 wordCount))).
  { intros ws ->. f_equal.
    rewrite (map_ext _ (fun _ => repeat Spec.pad lettersEach)).
    - rewrite map_const_repeat, length_seq. reflexivity.
    - intros i. rewrite firstn_nil. destruct i; reflexivity. }
  unfold Spec.encode_words.
  destruct label as [|c s]; [apply Hpads; reflexivity|].
  destruct (Spec.words (c :: s)) as [|w ws] eqn:E; [apply Hpads; reflexivity|].
  f_equal. apply map_ext_in. intros i Hi. apply in_seq in Hi.
  rewrite nth_error_firstn.
  destruct (Nat.ltb_spec i wordCount); [reflexivity|lia].
Qed.

(** ** Sample evaluations *)

Example flw_shirt : first_letters_of_words upper_latin1 (lit "Shirt") 2 1 = lit "S_".
Proof. reflexivity. Qed.

Example flw_blank : first_letters_of_words upper_latin1 (lit "   ") 2 1 = lit "__".
Proof. reflexivity. Qed.

Example flw_digit : first_letters_of_words upper_latin1 (lit "3d print") 2 2 = lit "3DPR".
Proof. reflexivity. Qed.

Example fnl_polo : first_n_letters upper_latin1 (lit "Polo") 3 = lit "POL".
Proof. reflexivity. Qed.

Example fnl_sharp_s : first_n_letters upper_latin1 [223%N] 3 = lit "SS_".
Proof. reflexivity. Qed.

Example build_sku_widget :
  build_sku upper_latin1 [] [] (lit "Widget") [] (Some (lit "2")) = Ok (lit "____WID__2").
Proof. reflexivity. Qed.

Example build_sku_no_size :
  build_sku upper_latin1 (lit "Shirt Top") (lit "Summer Line") (lit "Tee")
    (lit "Blue Sky") None = Ok (lit "STSLTEEBS_").
Proof. reflexivity. Qed.

(** The body is cut to nine characters when an encoder returns more than its
    width. *)
Example build_sku_truncates :
  build_sku upper_latin1 [223%N] [223%N] (lit "Polo") (lit "Blue") (Some (lit "3"))
  = Ok (lit "SS_SS_POL3").
Proof. reflexivity. Qed.

(** ** The claims on the encoders and the composer *)

(** C1: [build_sku] is the reference composition: the four encoded fields
    concatenated, the body padded with the pad character or cut to nine
    characters, then the first character of the size text, or the pad
    character for an absent size; where the size text has no first character
    neither side has a value.  On "Shirt", "Summer", "Polo", "Blue", "3" the
    result is "S_S_POLB_3". *)
Theorem build_sku_is_reference_composition :
  (forall (upper_char : char -> str)
          (product_type collection product_name color : str) (size : option str),
      value_of (build_sku upper_char product_type collection product_name color size)
      = Spec.compose_sku upper_char product_type collection product_name color size)
  /\ build_sku upper_latin1 (lit "Shirt") (lit "Summer") (lit "Polo") (lit "Blue")
       (Some (lit "3")) = Ok (lit "S_S_POLB_3").
Proof.
  split.
  - intros. apply build_sku_spec.
  - reflexivity.
Qed.

(** C2, at the failing input: with the empty string as size, [build_sku]
    raises IndexError whatever the four labels are. *)
Theorem build_sku_empty_size_raises :
  forall (upper_char : char -> str)
         (product_type collection product_name color : str),
    build_sku upper_char product_type collection product_name color (Some [])
    = Raise IndexError.
Proof. intros. reflexivity. Qed.

(** C3, at the failing input: with the empty string as size there is no
    returned string whose length could be ten, and the route that passes the
    submitted size on raises with it. *)
Theorem build_sku_empty_size_no_length :
  len_of (build_sku upper_latin1 [] [] (lit "Widget") [] (Some [])) = None
  /\ generate_sku upper_latin1 int_ascii 1
       (POST [("product_name"%string, lit "Widget"); ("size"%string, [])])
       empty_db = Raise IndexError.
Proof. split; reflexivity. Qed.

(** C4: for counts of at least one, [first_letters_of_words] is the specified
    algorithm: the words of the trimmed label, pad groups for an empty label
    or a label without words, and otherwise for each index below the word
    count the uppercased first letters of that word padded to the width, or
    a pad group where there is no such word; labels that agree on their first
    [num_words] words encode alike.  "Running Shoes" gives "RS" and "Red"
    gives "R_". *)
Theorem first_letters_of_words_follows_algorithm :
  (forall (upper_char : char -> str) (label : str) (num_words letters_each : Z),
      1 <= num_words -> 1 <= letters_each ->
      first_letters_of_words upper_char label num_words letters_each
      = Spec.encode_words upper_char label (Z.to_nat num_words)
          (Z.to_nat letters_each)
      /\ forall label',
           firstn (Z.to_nat num_words) (Spec.words label)
           = firstn (Z.to_nat num_words) (Spec.words label') ->
           first_letters_of_words upper_char label num_words letters_each
           = first_letters_of_words upper_char label' num_words letters_each)
  /\ first_letters_of_words upper_latin1 (lit "Running Shoes") 2 1 = lit "RS"
  /\ first_letters_of_words upper_latin1 (lit "Red") 2 1 = lit "R_".
Proof.
  split; [|split; reflexivity].
  intros up label nw le Hnw Hle. split.
  - apply first_letters_of_words_spec. lia.
  - intros label' H.
    rewrite !first_letters_of_words_spec by lia.
    rewrite !encode_words_first_words, H. reflexivity.
Qed.

Lemma first_letters_of_words_follows_algorithm_witness :
  1 <= 2 /\ 1 <= 1
  /\ first_letters_of_words upper_latin1 (lit "Red Hot Chili") 2 1
     = Spec.encode_words upper_latin1 (lit "Red Hot Chili") 2 1
  /\ first_letters_of_words upper_latin1 (lit "Red Hot Chili") 2 1
     = first_letters_of_words upper_latin1 (lit "Red Hot") 2 1.
Proof.
  assert (H1 : 1 <= 2) by lia. assert (H2 : 1 <= 1) by lia.
  destruct (proj1 first_letters_of_words_follows_algorithm upper_latin1
              (lit "Red Hot Chili") 2 1 H1 H2) as [Ha Hb].
  split; [exact H1|]. split; [exact H2|]. split; [exact Ha|].
  apply Hb. reflexivity.
Defined.

(** Sharp s is the only code point the table maps to more than one
    character; every ASCII character maps to one. *)
Lemma upper_latin1_single (c : char) :
  c <> 223%N -> length (upper_latin1 c) = 1%nat.
Proof.
  intros Hc. unfold upper_latin1.
  destruct ((97 <=? c) && (c <=? 122))%N; [reflexivity|].
  destruct (c =? 181)%N; [reflexivity|].
  destruct (N.eqb_spec c 223); [contradiction|].
  destruct ((224 <=? c) && (c <=? 254) && negb (c =? 247))%N; [reflexivity|].
  destruct (c =? 255)%N; reflexivity.
Qed.

(** C5, at the failing input: the label made of the one character sharp s,
    with two words of one letter each, gives "SS_", three characters where
    the claim says two.  [first_letters_of_words] cuts the word and then
    uppercases the piece, which may lengthen it; [first_n_letters] uppercases
    first and cuts afterwards, and gives one character on the same label.  In
    [build_sku] the fields then leave their columns: two words of one sharp s
    each as product type fill four columns instead of two, the body is cut after nine characters,
    and the colour is lost from the code. *)
Theorem first_letters_of_words_sharp_s :
  first_letters_of_words upper_latin1 [223%N] 2 1 = lit "SS_"
  /\ Py.len (first_letters_of_words upper_latin1 [223%N] 2 1) = 2 * 1 + 1
  /\ first_n_letters upper_latin1 [223%N] 1 = lit "S"
  /\ first_letters_of_words upper_latin1 [223%N; 32%N; 223%N] 2 1 = lit "SSSS"
  /\ first_letters_of_words upper_latin1 (lit "Blue Sky") 2 1 = lit "BS"
  /\ build_sku upper_latin1 [223%N; 32%N; 223%N] (lit "Summer") (lit "Polo")
       (lit "Blue Sky") (Some (lit "3"))
     = Ok (lit "SSSSS_POL3").
Proof. repeat split; reflexivity. Qed.

(** Where uppercasing lengthens no character of the label, the width is the
    product of the two counts: for counts of at least one and a label each of
    whose characters uppercases to one character, the output has exactly
    [num_words * letters_each] characters, and each of them is the pad
    character or the uppercase form of a character of the label. *)
Lemma first_letters_of_words_width :
  forall (upper_char : char -> str) (label : str) (num_words letters_each : Z),
    1 <= num_words -> 1 <= letters_each ->
    (forall a, In a label -> length (upper_char a) = 1%nat) ->
    Py.len (first_letters_of_words upper_char label num_words letters_each)
    = num_words * letters_each
    /\ forall c,
         In c (first_letters_of_words upper_char label num_words letters_each) ->
         c = underscore \/ exists a, In a label /\ upper_char a = [c].
Proof.
  intros up label nw le Hnw Hle Hsingle.
  rewrite first_letters_of_words_spec by lia. split.
  - unfold Py.len. rewrite encode_words_length by assumption. lia.
  - intros c. apply encode_words_chars. assumption.
Qed.

Lemma first_letters_of_words_width_witness :
  Py.len (first_letters_of_words upper_latin1 (lit "red 4x") 2 1) = 2 * 1
  /\ forall c,
       In c (first_letters_of_words upper_latin1 (lit "red 4x") 2 1) ->
       c = underscore \/ exists a, In a (lit "red 4x") /\ upper_latin1 a = [c].
Proof.
  apply (first_letters_of_words_width upper_latin1 (lit "red 4x") 2 1).
  - lia.
  - lia.
  - intros a Ha. simpl in Ha.
    repeat (destruct Ha as [<-|Ha]; [reflexivity|]). destruct Ha.
Defined.

(** C6: for [n] of at least one, [first_n_letters] gives [n] pad characters
    for a label that is empty after trimming and otherwise the first [n]
    characters of the trimmed, uppercased label, padded to [n]; the output
    has exactly [n] characters.  "ab" gives "AB_" and "abcdef" gives "ABC"
    for [n = 3]. *)
Theorem first_n_letters_follows_algorithm :
  (forall (upper_char : char -> str) (label : str) (n : Z),
      1 <= n ->
      first_n_letters upper_char label n
      = Spec.encode_prefix upper_char label (Z.to_nat n)
      /\ Py.len (first_n_letters upper_char label n) = n)
  /\ first_n_letters upper_latin1 (lit "ab") 3 = lit "AB_"
  /\ first_n_letters upper_latin1 (lit "abcdef") 3 = lit "ABC".
Proof.
  split; [|split; reflexivity].
  intros up label n Hn.
  rewrite first_n_letters_spec by lia. split; [reflexivity|].
  unfold Py.len. rewrite encode_prefix_length. lia.
Qed.

Lemma first_n_letters_follows_algorithm_witness :
  1 <= 3
  /\ first_n_letters upper_latin1 (lit "  ab ") 3
     = Spec.encode_prefix upper_latin1 (lit "  ab ") 3
  /\ Py.len (first_n_letters upper_latin1 (lit "  ab ") 3) = 3.
Proof.
  assert (H : 1 <= 3) by lia.
  split; [exact H|].
  exact (proj1 first_n_letters_follows_algorithm upper_latin1 (lit "  ab ") 3 H).
Defined.

(** C10: a width of zero contributes no character: with [num_words = 0],
    and with [letters_each = 0], [first_letters_of_words] returns the empty
    string. *)
Theorem width_zero_contributes_nothing :
  forall (upper_char : char -> str) (s : str),
    (forall letters_each : Z, first_letters_of_words upper_char s 0 letters_each = [])
    /\ (forall num_words : Z, first_letters_of_words upper_char s num_words 0 = []).
Proof.
  intros up s. split.
  - intros le. unfold first_letters_of_words. destruct s; reflexivity.
  - intros nw. rewrite first_letters_of_words_spec by lia.
    apply encode_words_zero_letters.
Qed.

(** ** The routes *)

Lemma find_all_false {A} (f : A -> bool) (l : list A) :
  (forall x, In x l -> f x = false) -> find f l = None.
Proof.
  induction l as [|a l IH]; intros H; simpl; [reflexivity|].
  rewrite (H a) by (left; reflexivity).
  apply IH. intros x Hx. apply H. right. exact Hx.
Qed.

Section RouteFacts.

Variable upper_char : char -> str.
Variable int_of_str : str -> option Z.

Lemma resolve_cases (table : list Vocab.t) (raw_id : option str) (uid : Z) :
  (overflows int_of_str raw_id = true
   /\ resolve int_of_str table raw_id uid = Raise OverflowError)
  \/ (overflows int_of_str raw_id = false
      /\ exists row, resolve int_of_str table raw_id uid = Ok row).
Proof.
  unfold overflows, resolve, first_by_id_user.
  destruct raw_id as [s|]; [|right; eauto].
  destruct (Py.is_empty s); [right; eauto|].
  destruct (int_of_str s) as [i|]; [|right; eauto].
  destruct (sqlite_integer i); [right|left]; eauto.
Qed.

(** A bad reference whose number, if it is one, SQLite can bind resolves to
    no row, hence to the empty label. *)
Lemma resolve_bad_reference (table : list Vocab.t) (uid : Z)
    (raw_id : option str) :
  bad_reference int_of_str table uid raw_id ->
  overflows int_of_str raw_id = false ->
  resolve int_of_str table raw_id uid = Ok None.
Proof.
  intros H. unfold overflows, resolve, first_by_id_user.
  destruct H as [s Hs | s i Hs Hno | s i r Hs _ _ Hown];
    destruct (Py.is_empty s); try reflexivity; rewrite Hs;
    try reflexivity; destruct (sqlite_integer i); try discriminate;
    intros _; rewrite find_all_false; try reflexivity; intros x Hx.
  - apply andb_false_intro1. apply Z.eqb_neq. apply Hno. exact Hx.
  - destruct (Z.eqb_spec (Vocab.id x) i) as [E|E]; [|reflexivity].
    simpl. apply Z.eqb_neq. apply Hown; assumption.
Qed.

(** The four ways a POST to generate-sku ends. *)
Lemma generate_sku_post (uid : Z) (form : Form) (db : DB) :
  let product_name_text := Py.strip (form_get_default form "product_name" []) in
  let size := form_get form "size" in
  let overflow :=
    overflows int_of_str (form_get form "product_type")
    || overflows int_of_str (form_get form "collection")
    || overflows int_of_str (form_get form "color") in
  (product_name_text = []
   /\ generate_sku upper_char int_of_str uid (POST form) db
      = Ok (Redirect "generate_sku" (lit "Please enter Product Name (type it).")
              warning, db))
  \/ (product_name_text <> [] /\ overflow = true
      /\ generate_sku upper_char int_of_str uid (POST form) db = Raise OverflowError)
  \/ (product_name_text <> [] /\ overflow = false /\ size = Some []
      /\ generate_sku upper_char int_of_str uid (POST form) db = Raise IndexError)
  \/ (product_name_text <> [] /\ overflow = false /\ size <> Some []
      /\ exists ptype coll color sku,
           resolve int_of_str (product_types db) (form_get form "product_type") uid
           = Ok ptype
           /\ resolve int_of_str (collections db) (form_get form "collection") uid
              = Ok coll
           /\ resolve int_of_str (colors db) (form_get form "color") uid = Ok color
           /\ build_sku upper_char (name_or_empty ptype) (name_or_empty coll)
                product_name_text (name_or_empty color) size = Ok sku
           /\ Py.len sku = 10
           /\ generate_sku upper_char int_of_str uid (POST form) db
              = Ok (Redirect "create_data" (lit "SKU generated: " ++ sku) success,
                    {| product_types := product_types db;
                       collections := collections db;
                       colors := colors db;
                       sku_records :=
                         add_sku_record (sku_records db) sku product_name_text
                           uid |})).
Proof.
  intros pn size overflow. unfold generate_sku. fold pn. fold size.
  destruct pn as [|c pn'] eqn:Epn; [left; split; reflexivity|].
  right. simpl Py.is_empty. cbv iota.
  assert (Hpn : c :: pn' <> []) by discriminate.
  subst overflow.
  destruct (resolve_cases (product_types db) (form_get form "product_type") uid)
    as [[O1 R1] | [O1 (ptype & R1)]]; rewrite O1, R1;
    [left; repeat split; assumption|].
  destruct (resolve_cases (collections db) (form_get form "collection") uid)
    as [[O2 R2] | [O2 (coll & R2)]]; rewrite O2, R2;
    [left; repeat split; assumption|].
  destruct (resolve_cases (colors db) (form_get form "color") uid)
    as [[O3 R3] | [O3 (color & R3)]]; rewrite O3, R3;
    [left; repeat split; assumption|].
  right. simpl bind.
  destruct (list_eq_dec N.eq_dec
              (match size with Some sz => sz | None => [0%N] end) []) as [Es|Es].
  - destruct size as [sz|]; [|discriminate]. subst sz.
    left. repeat split; assumption.
  - right. assert (Hsize : size <> Some []).
    { intros E. rewrite E in Es. apply Es. reflexivity. }
    destruct (build_sku_returns upper_char (name_or_empty ptype)
                (name_or_empty coll) (c :: pn') (name_or_empty color) size Hsize)
      as (sku & Hsku & Hlen).
    split; [assumption|]. split; [reflexivity|]. split; [assumption|].
    exists ptype, coll, color, sku. rewrite Hsku. simpl bind.
    repeat split; assumption.
Qed.

(** A request adds only rows owned by the user who made it. *)
Lemma store_after_vocab (uid : Z) (req : Request) (db : DB) (v : Vocabulary)
    (r : Vocab.t) :
  In r (table_of v (store_after upper_char int_of_str uid req db)) ->
  In r (table_of v db) \/ Vocab.user_id r = uid.
Proof.
  destruct req as [[|form]|[|form]]; simpl.
  - auto.
  - destruct (Py.is_empty _); [auto|].
    destruct (what_is _ "product_type");
      [|destruct (what_is _ "collection");
        [|destruct (what_is _ "color")]];
      destruct v; simpl; auto; unfold add_vocab; intros H;
      apply in_app_or in H; destruct H as [H|[<-|[]]]; auto.
  - auto.
  - change (In r (table_of v
               match generate_sku upper_char int_of_str uid (POST form) db with
               | Ok (_, db') => db'
               | Raise _ => db
               end) -> In r (table_of v db) \/ Vocab.user_id r = uid).
    destruct (generate_sku_post uid form db)
      as [[_ E] | [(_ & _ & E) | [(_ & _ & _ & E)
         | (_ & _ & _ & ptype & coll & color & sku & _ & _ & _ & _ & _ & E)]]];
      rewrite E; auto; destruct v; auto.
Qed.

Lemma store_after_records (uid : Z) (req : Request) (db : DB)
    (r : SKURecord.t) :
  In r (sku_records (store_after upper_char int_of_str uid req db)) ->
  In r (sku_records db) \/ SKURecord.user_id r = uid.
Proof.
  destruct req as [[|form]|[|form]]; simpl.
  - auto.
  - destruct (Py.is_empty _); [auto|].
    destruct (what_is _ "product_type");
      [|destruct (what_is _ "collection");
        [|destruct (what_is _ "color")]]; simpl; auto.
  - auto.
  - change (In r (sku_records
               match generate_sku upper_char int_of_str uid (POST form) db with
               | Ok (_, db') => db'
               | Raise _ => db
               end) -> In r (sku_records db) \/ SKURecord.user_id r = uid).
    destruct (generate_sku_post uid form db)
      as [[_ E] | [(_ & _ & E) | [(_ & _ & _ & E)
         | (_ & _ & _ & ptype & coll & color & sku & _ & _ & _ & _ & _ & E)]]];
      rewrite E; auto.
    cbn [sku_records]. unfold add_sku_record. intros H.
    apply in_app_or in H. destruct H as [H|[<-|[]]]; auto.
Qed.

End RouteFacts.

Lemma in_insert_desc (r x : SKURecord.t) (l : list SKURecord.t) :
  In x (insert_desc r l) -> x = r \/ In x l.
Proof.
  induction l as [|a l IH]; simpl.
  - intros [<-|[]]. left. reflexivity.
  - destruct (SKURecord.id a <=? SKURecord.id r); simpl.
    + intros [<-|H]; auto.
    + intros [<-|H]; auto. destruct (IH H); auto.
Qed.

Lemma in_order_by_id_desc (x : SKURecord.t) (l : list SKURecord.t) :
  In x (order_by_id_desc l) -> In x l.
Proof.
  induction l as [|a l IH]; simpl; [tauto|].
  intros H. apply in_insert_desc in H. destruct H as [->|H]; auto.
Qed.

Lemma recent_sku_records_owner (table : list SKURecord.t) (uid : Z)
    (r : SKURecord.t) :
  In r (recent_sku_records table uid) ->
  In r table /\ SKURecord.user_id r = uid.
Proof.
  unfold recent_sku_records. intros H.
  apply in_firstn, in_order_by_id_desc, filter_In in H.
  destruct H as [H E]. split; [exact H|]. apply Z.eqb_eq. exact E.
Qed.

Lemma filter_by_user_owner (table : list Vocab.t) (uid : Z) (r : Vocab.t) :
  In r (filter_by_user table uid) -> In r table /\ Vocab.user_id r = uid.
Proof.
  unfold filter_by_user. intros H. apply filter_In in H.
  destruct H as [H E]. split; [exact H|]. apply Z.eqb_eq. exact E.
Qed.

(** Every row on a page shown to a user is owned by that user. *)
Lemma pages_of_owner (upper_char : char -> str) (int_of_str : str -> option Z)
    (uid : Z) (db : DB) (page : Response) :
  In page (pages_of upper_char int_of_str uid db) ->
  (forall r, In r (rendered_vocab page) -> Vocab.user_id r = uid)
  /\ (forall r, In r (rendered_records page) -> SKURecord.user_id r = uid).
Proof.
  unfold pages_of. simpl. intros [<-|[<-|[]]]; simpl; split; intros r H.
  - repeat (apply in_app_or in H; destruct H as [H|H]);
      apply filter_by_user_owner in H; apply H.
  - apply recent_sku_records_owner in H. apply H.
  - repeat (apply in_app_or in H; destruct H as [H|H]);
      apply filter_by_user_owner in H; apply H.
  - destruct H.
Qed.

(** ** The claims on the routes *)

Example sample_db_tables :
  sample_db =
  {| product_types := [ {| Vocab.id := 1; Vocab.name := lit "Shirt"; Vocab.user_id := 2 |} ];
     collections := [];
     colors := [ {| Vocab.id := 1; Vocab.name := lit "Blue"; Vocab.user_id := 1 |} ];
     sku_records := [] |}.
Proof. reflexivity. Qed.

Example sample_run_records :
  sku_records (run upper_latin1 int_ascii sample_later sample_db) =
  [ {| SKURecord.id := 1; SKURecord.sku := lit "S___POL__3";
       SKURecord.product_name := lit "Polo"; SKURecord.user_id := 2 |};
    {| SKURecord.id := 2; SKURecord.sku := lit "____POL__3";
       SKURecord.product_name := lit "Polo"; SKURecord.user_id := 1 |} ].
Proof. reflexivity. Qed.

(** C7, at the failing input: the product type id 9223372036854775808 names
    no entry, the product name is not blank and the size is "3", yet the
    route raises OverflowError, which its [except] clauses do not catch, and
    stores no record. *)
Theorem generate_sku_out_of_range_id_raises :
  bad_reference int_ascii (product_types sample_db) 1
    (form_get out_of_range_form "product_type")
  /\ int_ascii (lit "9223372036854775808") = Some (2 ^ 63)
  /\ Py.strip (form_get_default out_of_range_form "product_name" []) = lit "Polo"
  /\ generate_sku upper_latin1 int_ascii 1 (POST out_of_range_form) sample_db
     = Raise OverflowError
  /\ store_after upper_latin1 int_ascii 1 (GenerateSku (POST out_of_range_form))
       sample_db = sample_db.
Proof.
  split; [|repeat split; reflexivity].
  apply (no_such_entry int_ascii _ 1 (lit "9223372036854775808") (2 ^ 63));
    [reflexivity|].
  intros r [<-|[]]. discriminate.
Qed.

(** Where every submitted id that is a number is one SQLite can bind, the
    route falls back to the empty label: for a request whose product name is not blank
    and whose size is absent or has a first character, a product type,
    collection or color id that is no well-formed id, names no entry, or
    names an entry of another user resolves to no row; [build_sku] is called
    with the empty label for it and returns a SKU, and the route stores a
    record with it for the requesting user. *)
Lemma generate_sku_bad_reference_in_range :
  forall (upper_char : char -> str) (int_of_str : str -> option Z)
         (uid : Z) (form : Form) (db : DB),
    let product_name_text := Py.strip (form_get_default form "product_name" []) in
    let size := form_get form "size" in
    product_name_text <> [] -> size <> Some [] ->
    overflows int_of_str (form_get form "product_type")
    || overflows int_of_str (form_get form "collection")
    || overflows int_of_str (form_get form "color") = false ->
    exists ptype coll color sku,
      resolve int_of_str (product_types db) (form_get form "product_type") uid
      = Ok ptype
      /\ resolve int_of_str (collections db) (form_get form "collection") uid
         = Ok coll
      /\ resolve int_of_str (colors db) (form_get form "color") uid = Ok color
      /\ (bad_reference int_of_str (product_types db) uid
            (form_get form "product_type") -> ptype = None)
      /\ (bad_reference int_of_str (collections db) uid
            (form_get form "collection") -> coll = None)
      /\ (bad_reference int_of_str (colors db) uid (form_get form "color")
          -> color = None)
      /\ build_sku upper_char (name_or_empty ptype) (name_or_empty coll)
           product_name_text (name_or_empty color) size = Ok sku
      /\ generate_sku upper_char int_of_str uid (POST form) db
         = Ok (Redirect "create_data" (lit "SKU generated: " ++ sku) success,
               {| product_types := product_types db;
                  collections := collections db;
                  colors := colors db;
                  sku_records :=
                    sku_records db
                    ++ [ {| SKURecord.id := next_id (map SKURecord.id (sku_records db));
                            SKURecord.sku := sku;
                            SKURecord.product_name := product_name_text;
                            SKURecord.user_id := uid |} ] |}).
Proof.
  intros up int uid form db pn size Hpn Hsize Hover.
  destruct (generate_sku_post up int uid form db)
    as [[E _] | [(_ & O & _) | [(_ & _ & E & _)
       | (_ & _ & _ & ptype & coll & color & sku & R1 & R2 & R3 & Hsku & _ & Hgen)]]].
  - contradiction.
  - fold pn in O. congruence.
  - contradiction.
  - apply orb_false_elim in Hover. destruct Hover as [Hover O3].
    apply orb_false_elim in Hover. destruct Hover as [O1 O2].
    exists ptype, coll, color, sku.
    split; [exact R1|]. split; [exact R2|]. split; [exact R3|].
    split; [intros Hbad; rewrite (resolve_bad_reference int _ _ _ Hbad O1) in R1;
            congruence|].
    split; [intros Hbad; rewrite (resolve_bad_reference int _ _ _ Hbad O2) in R2;
            congruence|].
    split; [intros Hbad; rewrite (resolve_bad_reference int _ _ _ Hbad O3) in R3;
            congruence|].
    split; [exact Hsku | exact Hgen].
Qed.

(** C8: an insert into one of the three vocabularies with a label that is
    empty after trimming is refused with the warning asking for a value and
    leaves the store as it was; with a label that is not, one entry with the
    trimmed label, owned by the requesting user, is appended to that
    vocabulary and nothing else changes. *)
Theorem create_data_insert :
  forall (uid : Z) (form : Form) (db : DB) (v : Vocabulary),
    form_get form "what" = Some (lit (what_of v)) ->
    let value := Py.strip (form_get_default form "value" []) in
    (value = [] ->
     create_data uid (POST form) db
     = (Redirect "create_data" (lit "Please enter a value.") warning, db))
    /\ (value <> [] ->
        let db' := snd (create_data uid (POST form) db) in
        (exists message,
            fst (create_data uid (POST form) db)
            = Redirect "create_data" message success)
        /\ table_of v db'
           = table_of v db
             ++ [ {| Vocab.id := next_id (map Vocab.id (table_of v db));
                     Vocab.name := value;
                     Vocab.user_id := uid |} ]
        /\ (forall v', v' <> v -> table_of v' db' = table_of v' db)
        /\ sku_records db' = sku_records db).
Proof.
  intros uid form db v Hwhat value. unfold create_data. fold value. rewrite Hwhat.
  split.
  - intros ->. reflexivity.
  - intros Hvalue. destruct value as [|c value'] eqn:E; [congruence|].
    simpl Py.is_empty. cbv iota.
    destruct v; simpl; (split; [eexists; reflexivity|]);
      (split; [reflexivity|]); (split; [|reflexivity]);
      intros v' Hv'; destruct v'; try reflexivity; congruence.
Qed.

Lemma create_data_insert_witness :
  form_get blue_form "what" = Some (lit (what_of color))
  /\ create_data 1 (POST blue_form) empty_db
     = (Redirect "create_data" (lit "Color added.") success,
        {| product_types := []; collections := [];
           colors := [ {| Vocab.id := 1; Vocab.name := lit "Blue"; Vocab.user_id := 1 |} ];
           sku_records := [] |})
  /\ colors (snd (create_data 1 (POST blue_form) empty_db))
     = [ {| Vocab.id := 1; Vocab.name := lit "Blue"; Vocab.user_id := 1 |} ].
Proof.
  assert (Hwhat : form_get blue_form "what" = Some (lit (what_of color)))
    by reflexivity.
  assert (Hvalue : Py.strip (form_get_default blue_form "value" []) <> [])
    by (vm_compute; discriminate).
  destruct (proj2 (create_data_insert 1 blue_form empty_db color Hwhat) Hvalue)
    as (_ & Htable & _).
  split; [exact Hwhat|]. split; [reflexivity|]. exact Htable.
Defined.

(** C9: in every reachable store, each vocabulary entry and each SKU record
    on a page shown to user A is owned by A; and a row that a request of
    another user B added is on no page shown to A, however the run goes
    on. *)
Theorem listings_scoped_to_user :
  forall (upper_char : char -> str) (int_of_str : str -> option Z) (A B : Z),
    A <> B ->
    (forall db page,
        reachable upper_char int_of_str db ->
        In page (pages_of upper_char int_of_str A db) ->
        (forall r, In r (rendered_vocab page) ->
                   Vocab.user_id r = A /\ Vocab.user_id r <> B)
        /\ (forall r, In r (rendered_records page) ->
                      SKURecord.user_id r = A /\ SKURecord.user_id r <> B))
    /\ (forall before req after page,
           let db0 := run upper_char int_of_str before empty_db in
           let db1 := store_after upper_char int_of_str B req db0 in
           let db := run upper_char int_of_str after db1 in
           In page (pages_of upper_char int_of_str A db) ->
           (forall v r, In r (table_of v db1) -> ~ In r (table_of v db0) ->
                        ~ In r (rendered_vocab page))
           /\ (forall r, In r (sku_records db1) -> ~ In r (sku_records db0) ->
                         ~ In r (rendered_records page))).
Proof.
  intros up int A B HAB. split.
  - intros db page _ Hpage.
    destruct (pages_of_owner up int A db page Hpage) as [Hv Hr].
    split; intros r H; [rewrite (Hv r H) | rewrite (Hr r H)]; auto.
  - intros before req after page db0 db1 db Hpage.
    destruct (pages_of_owner up int A db page Hpage) as [Hv Hr].
    split.
    + intros v r H1 H0 Hshown.
      destruct (store_after_vocab up int B req db0 v r H1) as [H|H]; [tauto|].
      apply HAB. rewrite <- (Hv r Hshown). exact H.
    + intros r H1 H0 Hshown.
      destruct (store_after_records up int B req db0 r H1) as [H|H]; [tauto|].
      apply HAB. rewrite <- (Hr r Hshown). exact H.
Qed.

Lemma listings_scoped_to_user_witness :
  1 <> 2
  /\ reachable upper_latin1 int_ascii
       (run upper_latin1 int_ascii sample_later sample_db)
  /\ (forall r,
         In r (rendered_vocab
                 (fst (create_data 1 GET
                         (run upper_latin1 int_ascii sample_later sample_db)))) ->
         Vocab.user_id r = 1 /\ Vocab.user_id r <> 2)
  /\ (forall r,
         In r (rendered_records
                 (fst (create_data 1 GET
                         (run upper_latin1 int_ascii sample_later sample_db)))) ->
         SKURecord.user_id r = 1 /\ SKURecord.user_id r <> 2).
Proof.
  assert (Hneq : 1 <> 2) by lia.
  assert (Hreach : reachable upper_latin1 int_ascii
                     (run upper_latin1 int_ascii sample_later sample_db)).
  { exists (sample_setup ++ sample_later). reflexivity. }
  split; [exact Hneq|]. split; [exact Hreach|].
  apply (proj1 (listings_scoped_to_user upper_latin1 int_ascii 1 2 Hneq)
           (run upper_latin1 int_ascii sample_later sample_db)).
  - exact Hreach.
  - left. reflexivity.
Defined.

(** * Further properties of the code *)

(** ** Whitespace and words *)

Lemma lstrip_all_space (s : str) : forallb Py.isspace s = true -> Py.lstrip s = [].
Proof.
  induction s as [|c s IH]; simpl; [reflexivity|].
  intros H. apply andb_prop in H. destruct H as [Hc Hs].
  rewrite Hc. apply IH. exact Hs.
Qed.

Lemma lstrip_nil_all_space (s : str) : Py.lstrip s = [] -> forallb Py.isspace s = true.
Proof.
  induction s as [|c s IH]; simpl; [reflexivity|].
  destruct (Py.isspace c); [exact IH | discriminate].
Qed.

(** What [lstrip] returns is empty or starts with a character that is no
    whitespace. *)
Lemma lstrip_head (s : str) :
  Py.lstrip s = [] \/ exists c r, Py.lstrip s = c :: r /\ Py.isspace c = false.
Proof.
  induction s as [|c s IH]; simpl; [left; reflexivity|].
  destruct (Py.isspace c) eqn:E; [exact IH|].
  right. exists c, s. split; [reflexivity | exact E].
Qed.

Lemma lstrip_idem (s : str) : Py.lstrip (Py.lstrip s) = Py.lstrip s.
Proof.
  destruct (lstrip_head s) as [E | (c & r & E & Hc)]; rewrite E; simpl.
  - reflexivity.
  - rewrite Hc. reflexivity.
Qed.

Lemma rstrip_idem (s : str) : Py.rstrip (Py.rstrip s) = Py.rstrip s.
Proof. unfold Py.rstrip. rewrite rev_involutive, lstrip_idem. reflexivity. Qed.

Lemma strip_cases (s : str) :
  (Py.strip s = [] /\ forallb Py.isspace s = true)
  \/ exists c r, Py.strip s = c :: r /\ Py.isspace c = false.
Proof.
  unfold Py.strip. rewrite rstrip_drop_trailing.
  destruct (lstrip_head s) as [E | (c & r & E & Hc)]; rewrite E; simpl.
  - left. split; [reflexivity|]. apply lstrip_nil_all_space. exact E.
  - right. rewrite Hc. simpl. eauto.
Qed.

Lemma strip_all_space (s : str) : forallb Py.isspace s = true -> Py.strip s = [].
Proof. intros H. unfold Py.strip. rewrite lstrip_all_space by exact H. reflexivity. Qed.

Lemma strip_idem (s : str) : Py.strip (Py.strip s) = Py.strip s.
Proof.
  destruct (strip_cases s) as [[E _] | (c & r & E & Hc)].
  - rewrite E. reflexivity.
  - unfold Py.strip at 1. rewrite E. simpl. rewrite Hc.
    rewrite <- E. unfold Py.strip. apply rstrip_idem.
Qed.

(** A string is what [drop_trailing] keeps of it, followed by whitespace. *)
Lemma drop_trailing_rest (s : str) :
  exists w, s = Spec.drop_trailing s ++ w /\ forallb Py.isspace w = true.
Proof.
  induction s as [|c s (w & E & Hw)]; simpl.
  - exists []. split; reflexivity.
  - destruct (Py.isspace c) eqn:Hc; simpl.
    + destruct (Spec.drop_trailing s) eqn:Ed; simpl.
      * exists (c :: s). split; [reflexivity|]. simpl. rewrite Hc. simpl.
        rewrite E. exact Hw.
      * exists w. split; [|exact Hw]. simpl in E. rewrite <- E. reflexivity.
    + exists w. split; [|exact Hw]. rewrite <- E. reflexivity.
Qed.

Lemma split_from_space (w cur : str) :
  forallb Py.isspace w = true ->
  Py.split_from cur w = if Py.is_empty cur then [] else [rev cur].
Proof.
  revert cur. induction w as [|c w IH]; intros cur; simpl; [reflexivity|].
  intros H. apply andb_prop in H. destruct H as [Hc Hw].
  rewrite Hc, (IH [] Hw). simpl. destruct (Py.is_empty cur); reflexivity.
Qed.

Lemma split_from_app_space (s w cur : str) :
  forallb Py.isspace w = true ->
  Py.split_from cur (s ++ w) = Py.split_from cur s.
Proof.
  intros Hw. revert cur. induction s as [|c s IH]; intros cur; simpl.
  - apply split_from_space. exact Hw.
  - rewrite !IH. reflexivity.
Qed.

Lemma split_lstrip (s : str) : Py.split (Py.lstrip s) = Py.split s.
Proof.
  unfold Py.split. induction s as [|c s IH]; simpl; [reflexivity|].
  destruct (Py.isspace c) eqn:E; [exact IH|].
  simpl. rewrite E. reflexivity.
Qed.

Lemma split_strip (s : str) : Py.split (Py.strip s) = Py.split s.
Proof.
  unfold Py.strip. rewrite rstrip_drop_trailing.
  destruct (drop_trailing_rest (Py.lstrip s)) as (w & E & Hw).
  transitivity (Py.split (Py.lstrip s)); [|apply split_lstrip].
  unfold Py.split.
  rewrite <- (split_from_app_space (Spec.drop_trailing (Py.lstrip s)) w [] Hw).
  rewrite <- E. reflexivity.
Qed.

(** The words of [split] are never empty, so the filter of the list
    comprehension keeps them all. *)
Lemma split_filter (s : str) :
  filter (fun p => negb (Py.is_empty p)) (Py.split s) = Py.split s.
Proof. rewrite split_tokens. apply filter_idem. Qed.

Lemma parts_split (s : str) :
  filter (fun p => negb (Py.is_empty p)) (Py.split (Py.strip s)) = Py.split s.
Proof. rewrite split_strip. apply split_filter. Qed.

Lemma split_all_space (s : str) : forallb Py.isspace s = true -> Py.split s = [].
Proof. intros H. unfold Py.split. rewrite split_from_space by exact H. reflexivity. Qed.

(** ** The encoders on any label and any widths *)

Section EncoderMore.

Variable upper_char : char -> str.

Lemma words_loop_any (parts : list str) (letters_each : Z) (l : list nat)
    (out : list str) :
  fold_left (words_loop_body upper_char parts letters_each) (map Z.of_nat l) out =
  out ++ map (fun i =>
                match nth_error parts i with
                | Some part =>
                    Py.ljust (upper upper_char (Py.slice_to part letters_each))
                      letters_each underscore
                | None => Py.times underscore letters_each
                end) l.
Proof.
  revert out. induction l as [|i l IH]; intros out; simpl.
  - rewrite app_nil_r. reflexivity.
  - rewrite IH. unfold words_loop_body, Py.len.
    destruct (Z.of_nat i <? Z.of_nat (length parts)) eqn:E.
    + apply Z.ltb_lt in E.
      assert (Hi : (i < length parts)%nat) by lia.
      rewrite Nat2Z.id, (nth_error_nth' parts [] Hi), <- app_assoc.
      reflexivity.
    + apply Z.ltb_ge in E.
      assert (Hi : (length parts <= i)%nat) by lia.
      apply nth_error_None in Hi. rewrite Hi, <- app_assoc. reflexivity.
Qed.

(** The function is its loop run over [s.split()]: the branch for the empty
    label, the [strip] and the filter of the comprehension change nothing. *)
Lemma first_letters_of_words_split (s : str) (num_words letters_each : Z) :
  first_letters_of_words upper_char s num_words letters_each =
  concat (map (fun i =>
                 match nth_error (Py.split s) i with
                 | Some part =>
                     Py.ljust (upper upper_char (Py.slice_to part letters_each))
                       letters_each underscore
                 | None => Py.times underscore letters_each
                 end) (seq 0 (Z.to_nat num_words))).
Proof.
  unfold first_letters_of_words, Py.join, Py.range.
  destruct s as [|c s]; simpl Py.is_empty; cbv iota.
  - rewrite map_map. f_equal. apply map_ext. intros i. destruct i; reflexivity.
  - rewrite parts_split, words_loop_any. reflexivity.
Qed.

Lemma first_n_letters_strip (s : str) (n : Z) :
  first_n_letters upper_char s n =
  let out := Py.slice_to (upper upper_char (Py.strip s)) n in
  if Py.len out <? n then Py.ljust out n underscore else out.
Proof.
  unfold first_n_letters. destruct s as [|c s]; [|reflexivity].
  change (upper upper_char (Py.strip [])) with (@nil char).
  assert (Hs : Py.slice_to (@nil char) n = []).
  { unfold Py.slice_to. destruct (n <? 0); apply firstn_nil. }
  simpl Py.is_empty. cbv iota zeta. rewrite Hs.
  change (Py.len (@nil char)) with 0. unfold Py.ljust, Py.times.
  change (Py.len (@nil char)) with 0.
  destruct (0 <? n) eqn:E.
  - apply Z.ltb_lt in E.
    destruct (n <=? 0) eqn:E'; [apply Z.leb_le in E'; lia|].
    rewrite Z.sub_0_r. reflexivity.
  - apply Z.ltb_ge in E. replace (Z.to_nat n) with 0%nat by lia. reflexivity.
Qed.

Lemma first_n_letters_blank (s : str) (n : Z) :
  forallb Py.isspace s = true ->
  first_n_letters upper_char s n = repeat underscore (Z.to_nat n).
Proof.
  intros H. rewrite first_n_letters_strip, (strip_all_space s H).
  transitivity (first_n_letters upper_char [] n); [|reflexivity].
  symmetry. exact (first_n_letters_strip [] n).
Qed.

Lemma concat_repeat_repeat {A} (a : A) (n k : nat) :
  concat (repeat (repeat a k) n) = repeat a (n * k).
Proof.
  induction n as [|n IH]; simpl; [reflexivity|].
  rewrite IH, repeat_app. reflexivity.
Qed.

Lemma first_letters_of_words_blank (s : str) (num_words letters_each : Z) :
  forallb Py.isspace s = true ->
  first_letters_of_words upper_char s num_words letters_each =
  repeat underscore (Z.to_nat num_words * Z.to_nat letters_each).
Proof.
  intros H. rewrite first_letters_of_words_split, (split_all_space s H).
  rewrite (map_ext _ (fun _ => Py.times underscore letters_each)).
  - rewrite map_const_repeat, length_seq. apply concat_repeat_repeat.
  - intros i. destruct i; reflexivity.
Qed.

Lemma first_n_letters_strip_arg (s : str) (n : Z) :
  first_n_letters upper_char (Py.strip s) n = first_n_letters upper_char s n.
Proof. rewrite !first_n_letters_strip, strip_idem. reflexivity. Qed.

Lemma first_letters_of_words_same_split (s s' : str) (num_words letters_each : Z) :
  Py.split s = Py.split s' ->
  first_letters_of_words upper_char s num_words letters_each =
  first_letters_of_words upper_char s' num_words letters_each.
Proof. intros H. rewrite !first_letters_of_words_split, H. reflexivity. Qed.

End EncoderMore.


Section EncoderReads.

Variable upper_char : char -> str.

(** The group of a word depends on the first [letters_each] characters of
    the word only. *)
Lemma first_letters_of_words_initials (s s' : str) (num_words letters_each : Z) :
  0 <= letters_each ->
  map (firstn (Z.to_nat letters_each)) (firstn (Z.to_nat num_words) (Py.split s))
  = map (firstn (Z.to_nat letters_each)) (firstn (Z.to_nat num_words) (Py.split s')) ->
  first_letters_of_words upper_char s num_words letters_each =
  first_letters_of_words upper_char s' num_words letters_each.
Proof.
  intros Hle H. rewrite !first_letters_of_words_split. f_equal.
  apply map_ext_in. intros i Hi. apply in_seq in Hi.
  assert (E : option_map (firstn (Z.to_nat letters_each)) (nth_error (Py.split s) i)
              = option_map (firstn (Z.to_nat letters_each))
                  (nth_error (Py.split s') i)).
  { apply (f_equal (fun l => nth_error l i)) in H.
    rewrite !nth_error_map, !nth_error_firstn in H.
    destruct (Nat.ltb_spec i (Z.to_nat num_words)); [exact H | lia]. }
  destruct (nth_error (Py.split s) i) as [p|],
           (nth_error (Py.split s') i) as [p'|]; simpl in E;
    try discriminate; [|reflexivity].
  rewrite !slice_to_firstn by assumption. congruence.
Qed.

Lemma first_n_letters_prefix (s s' : str) (n : Z) :
  0 <= n ->
  firstn (Z.to_nat n) (upper upper_char (Py.strip s))
  = firstn (Z.to_nat n) (upper upper_char (Py.strip s')) ->
  first_n_letters upper_char s n = first_n_letters upper_char s' n.
Proof.
  intros Hn H. rewrite !first_n_letters_strip. cbv zeta.
  rewrite !slice_to_firstn by assumption. rewrite H. reflexivity.
Qed.

Lemma build_sku_body_length (product_type collection product_name color : str) :
  (forall a, In a product_type \/ In a collection \/ In a color ->
             length (upper_char a) = 1%nat) ->
  Py.len (first_letters_of_words upper_char product_type 2 1) = 2
  /\ Py.len (first_letters_of_words upper_char collection 2 1) = 2
  /\ Py.len (first_n_letters upper_char product_name 3) = 3
  /\ Py.len (first_letters_of_words upper_char color 2 1) = 2.
Proof.
  intros H. unfold Py.len.
  rewrite !(first_letters_of_words_spec upper_char _ 2 1) by lia.
  rewrite (first_n_letters_spec upper_char _ 3) by lia.
  rewrite !encode_words_length, encode_prefix_length by (intros; apply H; tauto).
  repeat split.
Qed.

End EncoderReads.

(** ** Further properties of the encoders and the composer *)

(** X1: a label that is empty or consists of whitespace only encodes as pad
    characters alone, in both encoders and for any widths: as many as the
    widths ask for, and none for a width below one. *)
Theorem blank_label_encodes_as_pads :
  forall (upper_char : char -> str) (s : str) (num_words letters_each n : Z),
    forallb Py.isspace s = true ->
    first_letters_of_words upper_char s num_words letters_each
    = repeat underscore (Z.to_nat num_words * Z.to_nat letters_each)
    /\ first_n_letters upper_char s n = repeat underscore (Z.to_nat n).
Proof.
  intros up s nw le n H. split.
  - apply first_letters_of_words_blank. exact H.
  - apply first_n_letters_blank. exact H.
Qed.

Lemma blank_label_encodes_as_pads_witness :
  first_letters_of_words upper_latin1 [32%N; 9%N; 160%N] 2 1 = lit "__"
  /\ first_n_letters upper_latin1 [32%N; 9%N; 160%N] 3 = lit "___".
Proof.
  apply (blank_label_encodes_as_pads upper_latin1 [32%N; 9%N; 160%N] 2 1 3).
  reflexivity.
Defined.

(** X2: [first_letters_of_words] is determined by the words [s.split()]
    finds: two labels with the same words encode alike whatever whitespace
    separates or surrounds the words, for any widths. *)
Theorem first_letters_of_words_by_words :
  forall (upper_char : char -> str) (s s' : str) (num_words letters_each : Z),
    Py.split s = Py.split s' ->
    first_letters_of_words upper_char s num_words letters_each
    = first_letters_of_words upper_char s' num_words letters_each.
Proof.
  intros up s s' nw le Hwords.
  rewrite (first_letters_of_words_split up s), (first_letters_of_words_split up s').
  f_equal. apply map_ext. intros i.
  rewrite Hwords. reflexivity.
Qed.

Lemma first_letters_of_words_by_words_witness :
  first_letters_of_words upper_latin1 (lit "  Red   Hot ") 2 2
  = first_letters_of_words upper_latin1 (lit "Red Hot") 2 2.
Proof.
  apply (first_letters_of_words_by_words upper_latin1
           (lit "  Red   Hot ") (lit "Red Hot") 2 2).
  reflexivity.
Defined.

(** X3: whitespace around a label never shows in a SKU: both encoders, and
    so [build_sku], give the same result on the stripped labels as on the
    labels themselves. *)
Theorem surrounding_whitespace_is_ignored :
  forall (upper_char : char -> str)
         (product_type collection product_name color : str) (size : option str)
         (num_words letters_each n : Z),
    first_letters_of_words upper_char (Py.strip product_type) num_words letters_each
    = first_letters_of_words upper_char product_type num_words letters_each
    /\ first_n_letters upper_char (Py.strip product_name) n
       = first_n_letters upper_char product_name n
    /\ build_sku upper_char (Py.strip product_type) (Py.strip collection)
         (Py.strip product_name) (Py.strip color) size
       = build_sku upper_char product_type collection product_name color size.
Proof.
  intros up pt c pn col size nw le n.
  assert (Hw : forall s a b,
             first_letters_of_words up (Py.strip s) a b
             = first_letters_of_words up s a b).
  { intros s a b. apply first_letters_of_words_same_split, split_strip. }
  split; [apply Hw|]. split; [apply first_n_letters_strip_arg|].
  unfold build_sku. rewrite !Hw, first_n_letters_strip_arg. reflexivity.
Qed.

(** X4: [first_letters_of_words] reads only the first [letters_each]
    characters of the first [num_words] words: labels that agree on those
    encode alike. *)
Theorem first_letters_of_words_reads_initials :
  forall (upper_char : char -> str) (s s' : str) (num_words letters_each : Z),
    0 <= letters_each ->
    map (firstn (Z.to_nat letters_each)) (firstn (Z.to_nat num_words) (Py.split s))
    = map (firstn (Z.to_nat letters_each))
        (firstn (Z.to_nat num_words) (Py.split s')) ->
    first_letters_of_words upper_char s num_words letters_each
    = first_letters_of_words upper_char s' num_words letters_each.
Proof.
  intros up s s' nw le Hle H.
  rewrite (first_letters_of_words_split up s), (first_letters_of_words_split up s').
  f_equal. apply map_ext_in. intros i Hi. apply in_seq in Hi.
  apply (f_equal (fun l => nth_error l i)) in H.
  rewrite !nth_error_map, !nth_error_firstn in H.
  destruct (Nat.ltb_spec i (Z.to_nat nw)); [|lia].
  destruct (nth_error (Py.split s) i) as [p|],
           (nth_error (Py.split s') i) as [p'|]; simpl in H;
    try discriminate; [|reflexivity].
  rewrite !slice_to_firstn by assumption. congruence.
Qed.

Lemma first_letters_of_words_reads_initials_witness :
  first_letters_of_words upper_latin1 (lit "Running Shoes Large") 2 1
  = first_letters_of_words upper_latin1 (lit "Red  Sky") 2 1.
Proof.
  apply (first_letters_of_words_reads_initials upper_latin1
           (lit "Running Shoes Large") (lit "Red  Sky") 2 1).
  - lia.
  - reflexivity.
Defined.

(** X5: a SKU records only the initial letters of the first two words of
    product type, collection and color, the first three characters of the
    stripped, uppercased product name, and the first character of the size,
    an absent size counting as an underscore: inputs that agree on those give
    the same result. *)
Theorem build_sku_reads_initials :
  forall (upper_char : char -> str)
         (product_type collection product_name color : str) (size : option str)
         (product_type' collection' product_name' color' : str) (size' : option str),
    map (firstn 1) (firstn 2 (Py.split product_type))
    = map (firstn 1) (firstn 2 (Py.split product_type')) ->
    map (firstn 1) (firstn 2 (Py.split collection))
    = map (firstn 1) (firstn 2 (Py.split collection')) ->
    firstn 3 (upper upper_char (Py.strip product_name))
    = firstn 3 (upper upper_char (Py.strip product_name')) ->
    map (firstn 1) (firstn 2 (Py.split color))
    = map (firstn 1) (firstn 2 (Py.split color')) ->
    match size with Some sz => hd_error sz | None => Some underscore end
    = match size' with Some sz => hd_error sz | None => Some underscore end ->
    build_sku upper_char product_type collection product_name color size
    = build_sku upper_char product_type' collection' product_name' color' size'.
Proof.
  intros up pt c pn col size pt' c' pn' col' size' Hpt Hc Hpn Hcol Hsize.
  unfold build_sku.
  rewrite (first_letters_of_words_initials up pt pt' 2 1) by (lia || exact Hpt).
  rewrite (first_letters_of_words_initials up c c' 2 1) by (lia || exact Hc).
  rewrite (first_letters_of_words_initials up col col' 2 1) by (lia || exact Hcol).
  rewrite (first_n_letters_prefix up pn pn' 3) by (lia || exact Hpn).
  destruct size as [[|a sz]|], size' as [[|a' sz']|]; simpl in Hsize;
    try discriminate; try reflexivity;
    injection Hsize as <-; reflexivity.
Qed.

Lemma build_sku_reads_initials_witness :
  build_sku upper_latin1 (lit "Shirt") (lit "Summer Line") (lit "Polo") (lit "Blue") None
  = build_sku upper_latin1 (lit " Sweater") (lit "Spring  Look 24")
      (lit "polish") (lit "Black") (Some (lit "_x")).
Proof.
  apply (build_sku_reads_initials upper_latin1); reflexivity.
Defined.

(** X6: for a size that is absent or has a first character, [build_sku]
    returns a string of exactly ten characters: nine of body, then the first
    character of the size, or an underscore for an absent size. *)
Theorem build_sku_shape :
  forall (upper_char : char -> str)
         (product_type collection product_name color : str) (size : option str),
    size <> Some [] ->
    exists body ch,
      build_sku upper_char product_type collection product_name color size
      = Ok (body ++ [ch])
      /\ Py.len body = 9
      /\ Py.len (body ++ [ch]) = 10
      /\ match size with
         | Some sz => hd_error sz = Some ch
         | None => ch = underscore
         end.
Proof.
  intros up pt c pn col size Hsize. unfold build_sku. rewrite normalise_spec.
  set (body := Spec.normalise _).
  assert (Hb : length body = 9%nat) by apply normalise_length.
  destruct size as [[|a sz]|]; [exfalso; apply Hsize; reflexivity| |]; simpl.
  - exists body, a. unfold Py.len. rewrite length_app, Hb. auto.
  - exists body, underscore. unfold Py.len. rewrite length_app, Hb. auto.
Qed.

Lemma build_sku_shape_witness :
  exists body ch,
    build_sku upper_latin1 (lit "Shirt") [] (lit "Polo") (lit "Blue") (Some (lit "XL"))
    = Ok (body ++ [ch])
    /\ Py.len body = 9
    /\ Py.len (body ++ [ch]) = 10
    /\ hd_error (lit "XL") = Some ch.
Proof.
  apply (build_sku_shape upper_latin1 (lit "Shirt") [] (lit "Polo") (lit "Blue")
           (Some (lit "XL"))).
  discriminate.
Defined.

(** X7: when every character of product type, collection and color
    uppercases to one character, the four fields have two, two, three and two
    characters, the body needs neither padding nor cutting, and the SKU is the
    four encoded fields in order followed by the size character. *)
Theorem build_sku_fields_in_place :
  forall (upper_char : char -> str)
         (product_type collection product_name color : str) (size : option str),
    (forall a, In a product_type \/ In a collection \/ In a color ->
               length (upper_char a) = 1%nat) ->
    size <> Some [] ->
    build_sku upper_char product_type collection product_name color size
    = Ok (first_letters_of_words upper_char product_type 2 1
          ++ first_letters_of_words upper_char collection 2 1
          ++ first_n_letters upper_char product_name 3
          ++ first_letters_of_words upper_char color 2 1
          ++ [match size with Some (ch :: _) => ch | _ => underscore end])
    /\ Py.len (first_letters_of_words upper_char product_type 2 1) = 2
    /\ Py.len (first_letters_of_words upper_char collection 2 1) = 2
    /\ Py.len (first_n_letters upper_char product_name 3) = 3
    /\ Py.len (first_letters_of_words upper_char color 2 1) = 2.
Proof.
  intros up pt c pn col size Hsingle Hsize.
  destruct (build_sku_body_length up pt c pn col Hsingle) as (H1 & H2 & H3 & H4).
  split; [|tauto].
  unfold build_sku.
  assert (Hlen : Py.len (first_letters_of_words up pt 2 1
                         ++ first_letters_of_words up c 2 1
                         ++ first_n_letters up pn 3
                         ++ first_letters_of_words up col 2 1) = 9).
  { unfold Py.len in *. rewrite !length_app. lia. }
  rewrite Hlen. simpl.
  destruct size as [[|a sz]|]; [exfalso; apply Hsize; reflexivity| |]; simpl;
    rewrite <- !app_assoc; reflexivity.
Qed.

Lemma build_sku_fields_in_place_witness :
  build_sku upper_latin1 (lit "Shirt") (lit "Summer") (lit "Polo") (lit "Blue")
    (Some (lit "3"))
  = Ok (first_letters_of_words upper_latin1 (lit "Shirt") 2 1
        ++ first_letters_of_words upper_latin1 (lit "Summer") 2 1
        ++ first_n_letters upper_latin1 (lit "Polo") 3
        ++ first_letters_of_words upper_latin1 (lit "Blue") 2 1
        ++ lit "3").
Proof.
  refine (proj1 (build_sku_fields_in_place upper_latin1 (lit "Shirt") (lit "Summer")
                   (lit "Polo") (lit "Blue") (Some (lit "3")) _ _)).
  - intros a Ha. apply upper_latin1_single.
    intros ->. cbv in Ha. intuition discriminate.
  - discriminate.
Defined.



(** ** What a request does to the store *)

Lemma Vocabulary_eq_dec (a b : Vocabulary) : {a = b} + {a <> b}.
Proof. decide equality. Qed.

Section StoreFacts.

Variable upper_char : char -> str.
Variable int_of_str : str -> option Z.

Lemma build_sku_ok_length (product_type collection product_name color : str)
    (size : option str) (sku : str) :
  build_sku upper_char product_type collection product_name color size = Ok sku ->
  Py.len sku = 10.
Proof.
  intros H.
  destruct (list_eq_dec N.eq_dec (match size with Some sz => sz | None => [0%N] end) [])
    as [E|E].
  - destruct size as [sz|]; [|discriminate]. subst sz. discriminate.
  - destruct (build_sku_returns upper_char product_type collection product_name
                color size) as (sku' & H' & Hlen).
    + intros ->. apply E. reflexivity.
    + congruence.
Qed.

Lemma strip_nonempty_cases (s : str) :
  Py.is_empty (Py.strip s) = false -> Py.strip s <> [].
Proof. intros H E. rewrite E in H. discriminate. Qed.

(** A request leaves the store as it is, or appends one vocabulary entry
    with a stripped, non-empty name, or appends one SKU record with a
    ten-character code and a stripped, non-empty product name; the appended
    row is owned by the requesting user. *)
Lemma store_after_effect (uid : Z) (req : Request) (db : DB) :
  store_after upper_char int_of_str uid req db = db
  \/ (exists v value,
         value <> [] /\ Py.strip value = value
         /\ table_of v (store_after upper_char int_of_str uid req db)
            = add_vocab (table_of v db) value uid
         /\ (forall v', v' <> v ->
                        table_of v' (store_after upper_char int_of_str uid req db)
                        = table_of v' db)
         /\ sku_records (store_after upper_char int_of_str uid req db)
            = sku_records db)
  \/ (exists sku pn,
         Py.len sku = 10 /\ pn <> [] /\ Py.strip pn = pn
         /\ sku_records (store_after upper_char int_of_str uid req db)
            = add_sku_record (sku_records db) sku pn uid
         /\ forall v, table_of v (store_after upper_char int_of_str uid req db)
                      = table_of v db).
Proof.
  destruct req as [[|form]|[|form]].
  - left. reflexivity.
  - simpl. destruct (Py.is_empty _) eqn:Ev; [auto|].
    apply strip_nonempty_cases in Ev.
    set (value := Py.strip (form_get_default form "value" [])) in *.
    assert (Hs : Py.strip value = value) by apply strip_idem.
    destruct (what_is _ "product_type");
      [|destruct (what_is _ "collection"); [|destruct (what_is _ "color")]];
      auto; right; left;
      [exists product_type | exists collection | exists color];
      exists value; simpl; repeat split; auto;
      intros v' Hv'; destruct v'; try reflexivity; congruence.
  - left. reflexivity.
  - unfold store_after.
    destruct (generate_sku_post upper_char int_of_str uid form db)
      as [[_ E] | [(_ & _ & E) | [(_ & _ & _ & E)
         | (Hpn & _ & _ & ptype & coll & color & sku & _ & _ & _ & _ & Hlen & E)]]];
      rewrite E; auto.
    right. right.
    exists sku, (Py.strip (form_get_default form "product_name" [])).
    split; [exact Hlen|]. split; [exact Hpn|]. split; [apply strip_idem|].
    split; [reflexivity|]. intros []; reflexivity.
Qed.

Lemma store_after_vocab_grows (uid : Z) (req : Request) (db : DB) (v : Vocabulary) :
  exists added,
    table_of v (store_after upper_char int_of_str uid req db) = table_of v db ++ added
    /\ Forall (fun r => Vocab.user_id r = uid) added.
Proof.
  destruct (store_after_effect uid req db)
    as [E | [(v0 & value & _ & _ & Hv & Hothers & _) | (sku & pn & _ & _ & _ & _ & Hv)]].
  - rewrite E. exists []. rewrite app_nil_r. auto.
  - destruct (Vocabulary_eq_dec v v0) as [->|Hne].
    + rewrite Hv. unfold add_vocab. eexists. split; [reflexivity|].
      constructor; [reflexivity | constructor].
    + rewrite (Hothers v Hne). exists []. rewrite app_nil_r. auto.
  - rewrite Hv. exists []. rewrite app_nil_r. auto.
Qed.

End StoreFacts.

(** ** Runs *)

Section RunFacts.

Variable upper_char : char -> str.
Variable int_of_str : str -> option Z.

Lemma run_app (t1 t2 : list (Z * Request)) (db : DB) :
  run upper_char int_of_str (t1 ++ t2) db
  = run upper_char int_of_str t2 (run upper_char int_of_str t1 db).
Proof.
  revert db. induction t1 as [|[uid req] t1 IH]; intros db; simpl; auto.
Qed.

Lemma run_invariant (P : DB -> Prop) :
  (forall uid req db, P db -> P (store_after upper_char int_of_str uid req db)) ->
  forall trace db, P db -> P (run upper_char int_of_str trace db).
Proof.
  intros Hstep trace. induction trace as [|[uid req] trace IH]; intros db H; simpl.
  - exact H.
  - apply IH, Hstep, H.
Qed.

Lemma reachable_invariant (P : DB -> Prop) :
  P empty_db ->
  (forall uid req db, P db -> P (store_after upper_char int_of_str uid req db)) ->
  forall db, reachable upper_char int_of_str db -> P db.
Proof.
  intros H0 Hstep db [trace ->]. apply run_invariant; assumption.
Qed.

Lemma store_after_records_grows (uid : Z) (req : Request) (db : DB) :
  exists added,
    sku_records (store_after upper_char int_of_str uid req db)
    = sku_records db ++ added
    /\ Forall (fun r => SKURecord.user_id r = uid) added.
Proof.
  destruct (store_after_effect upper_char int_of_str uid req db)
    as [E | [(v0 & value & _ & _ & _ & _ & Hr) | (sku & pn & _ & _ & _ & Hr & _)]].
  - rewrite E. exists []. rewrite app_nil_r. auto.
  - rewrite Hr. exists []. rewrite app_nil_r. auto.
  - rewrite Hr. unfold add_sku_record. eexists. split; [reflexivity|].
    constructor; [reflexivity | constructor].
Qed.

Lemma store_after_total (uid : Z) (req : Request) (db : DB) :
  (length (product_types (store_after upper_char int_of_str uid req db))
   + length (collections (store_after upper_char int_of_str uid req db))
   + length (colors (store_after upper_char int_of_str uid req db))
   + length (sku_records (store_after upper_char int_of_str uid req db))
   <= length (product_types db) + length (collections db) + length (colors db)
      + length (sku_records db) + 1)%nat.
Proof.
  destruct (store_after_effect upper_char int_of_str uid req db)
    as [E | [(v0 & value & _ & _ & Hv & Ho & Hr) | (sku & pn & _ & _ & _ & Hr & Hv)]].
  - rewrite E. lia.
  - pose proof (Ho product_type) as Hp. pose proof (Ho collection) as Hc.
    pose proof (Ho color) as Hk. rewrite Hr.
    destruct v0; simpl in Hv, Hp, Hc, Hk; rewrite Hv;
      try rewrite Hp by discriminate; try rewrite Hc by discriminate;
      try rewrite Hk by discriminate;
      unfold add_vocab; rewrite length_app; simpl; lia.
  - pose proof (Hv product_type) as Hp. pose proof (Hv collection) as Hc.
    pose proof (Hv color) as Hk. simpl in Hp, Hc, Hk.
    rewrite Hr, Hp, Hc, Hk. unfold add_sku_record. rewrite length_app.
    simpl. lia.
Qed.

End RunFacts.

(** X9: the store only grows.  Whatever requests are made, every table
    afterwards is the table before followed by new rows: no request changes,
    removes or reorders a stored row, and each request adds at most one
    row. *)
Theorem store_only_grows :
  forall (upper_char : char -> str) (int_of_str : str -> option Z)
         (trace : list (Z * Request)) (db : DB),
    let db' := run upper_char int_of_str trace db in
    (forall v, exists added, table_of v db' = table_of v db ++ added)
    /\ (exists added, sku_records db' = sku_records db ++ added)
    /\ (length (product_types db') + length (collections db')
        + length (colors db') + length (sku_records db')
        <= length (product_types db) + length (collections db)
           + length (colors db) + length (sku_records db) + length trace)%nat.
Proof.
  intros up int trace. induction trace as [|[uid req] trace IH]; intros db; simpl.
  - repeat split.
    + intros v. exists []. rewrite app_nil_r. reflexivity.
    + exists []. rewrite app_nil_r. reflexivity.
    + lia.
  - destruct (IH (store_after up int uid req db)) as (Hv & Hr & Hn).
    repeat split.
    + intros v. destruct (Hv v) as (a2 & E2).
      destruct (store_after_vocab_grows up int uid req db v) as (a1 & E1 & _).
      exists (a1 ++ a2). rewrite E2, E1, app_assoc. reflexivity.
    + destruct Hr as (a2 & E2).
      destruct (store_after_records_grows up int uid req db) as (a1 & E1 & _).
      exists (a1 ++ a2). rewrite E2, E1, app_assoc. reflexivity.
    + pose proof (store_after_total up int uid req db). lia.
Qed.

(** ** Pages and other users' requests *)

Lemma filter_app_none {A} (f : A -> bool) (l added : list A) :
  Forall (fun x => f x = false) added -> filter f (l ++ added) = filter f l.
Proof.
  intros H. rewrite filter_app.
  replace (filter f added) with (@nil A); [apply app_nil_r|].
  induction H as [|x added Hx _ IH]; simpl; [reflexivity|].
  rewrite Hx. exact IH.
Qed.

Lemma pages_of_other_user (upper_char : char -> str) (int_of_str : str -> option Z)
    (A B : Z) (req : Request) (db : DB) :
  A <> B ->
  pages_of upper_char int_of_str A (store_after upper_char int_of_str B req db)
  = pages_of upper_char int_of_str A db.
Proof.
  intros HAB.
  assert (Hv : forall v,
             filter_by_user (table_of v (store_after upper_char int_of_str B req db)) A
             = filter_by_user (table_of v db) A).
  { intros v.
    destruct (store_after_vocab_grows upper_char int_of_str B req db v)
      as (added & -> & Hown).
    unfold filter_by_user. apply filter_app_none.
    eapply Forall_impl; [|exact Hown].
    intros r Hr. simpl in Hr. apply Z.eqb_neq. lia. }
  assert (Hr : recent_sku_records
                 (sku_records (store_after upper_char int_of_str B req db)) A
               = recent_sku_records (sku_records db) A).
  { destruct (store_after_records_grows upper_char int_of_str B req db)
      as (added & -> & Hown).
    unfold recent_sku_records. f_equal. f_equal. apply filter_app_none.
    eapply Forall_impl; [|exact Hown].
    intros r Hr. simpl in Hr. apply Z.eqb_neq. lia. }
  pose proof (Hv product_type) as Hp. pose proof (Hv collection) as Hc.
  pose proof (Hv color) as Hk. simpl in Hp, Hc, Hk.
  unfold pages_of. simpl. rewrite Hp, Hc, Hk, Hr. reflexivity.
Qed.

(** X10: what a user sees does not depend on what other users do: after any
    run of requests made by users other than A, both pages show A exactly
    what they showed before. *)
Theorem other_users_requests_are_invisible :
  forall (upper_char : char -> str) (int_of_str : str -> option Z)
         (A : Z) (trace : list (Z * Request)) (db : DB),
    Forall (fun step => fst step <> A) trace ->
    pages_of upper_char int_of_str A (run upper_char int_of_str trace db)
    = pages_of upper_char int_of_str A db.
Proof.
  intros up int A trace. induction trace as [|[uid req] trace IH]; intros db H.
  - reflexivity.
  - inversion H as [|? ? Hhd Htl]; subst. simpl in Hhd. simpl.
    rewrite (IH _ Htl). apply pages_of_other_user. congruence.
Qed.

Lemma other_users_requests_are_invisible_witness :
  pages_of upper_latin1 int_ascii 1
    (run upper_latin1 int_ascii
       [(2, GenerateSku (POST sample_form)); (3, CreateData (POST blue_form))]
       sample_db)
  = pages_of upper_latin1 int_ascii 1 sample_db.
Proof.
  apply (other_users_requests_are_invisible upper_latin1 int_ascii 1).
  repeat constructor; simpl; lia.
Defined.

(** ** What reachable stores hold *)

(** X11: every stored row is well formed.  In every reachable store each
    vocabulary entry has a non-empty name without surrounding whitespace, and
    each SKU record has a code of exactly ten characters and a non-empty
    product name without surrounding whitespace. *)
Theorem stored_rows_are_well_formed :
  forall (upper_char : char -> str) (int_of_str : str -> option Z) (db : DB),
    reachable upper_char int_of_str db ->
    (forall v r, In r (table_of v db) ->
                 Vocab.name r <> [] /\ Py.strip (Vocab.name r) = Vocab.name r)
    /\ (forall r, In r (sku_records db) ->
                  Py.len (SKURecord.sku r) = 10
                  /\ SKURecord.product_name r <> []
                  /\ Py.strip (SKURecord.product_name r) = SKURecord.product_name r).
Proof.
  intros up int.
  apply (reachable_invariant up int
           (fun db =>
              (forall v r, In r (table_of v db) ->
                 Vocab.name r <> [] /\ Py.strip (Vocab.name r) = Vocab.name r)
              /\ (forall r, In r (sku_records db) ->
                    Py.len (SKURecord.sku r) = 10
                    /\ SKURecord.product_name r <> []
                    /\ Py.strip (SKURecord.product_name r)
                       = SKURecord.product_name r))).
  - split; [intros [] r []|intros r []].
  - intros uid req db [Hv Hr].
    destruct (store_after_effect up int uid req db)
      as [E | [(v0 & value & H1 & H2 & Ev & Eo & Er)
              | (sku & pn & H1 & H2 & H3 & Er & Ev)]].
    + rewrite E. split; assumption.
    + split.
      * intros v r Hin. destruct (Vocabulary_eq_dec v v0) as [->|Hne].
        -- rewrite Ev in Hin. unfold add_vocab in Hin.
           apply in_app_or in Hin. destruct Hin as [Hin|[<-|[]]]; eauto.
        -- rewrite (Eo v Hne) in Hin. eauto.
      * intros r Hin. rewrite Er in Hin. auto.
    + split.
      * intros v r Hin. rewrite Ev in Hin. eauto.
      * intros r Hin. rewrite Er in Hin. unfold add_sku_record in Hin.
        apply in_app_or in Hin. destruct Hin as [Hin|[<-|[]]]; auto.
Qed.

Lemma stored_rows_are_well_formed_witness :
  reachable upper_latin1 int_ascii (run upper_latin1 int_ascii sample_later sample_db)
  /\ (forall r,
         In r (sku_records (run upper_latin1 int_ascii sample_later sample_db)) ->
         Py.len (SKURecord.sku r) = 10
         /\ SKURecord.product_name r <> []
         /\ Py.strip (SKURecord.product_name r) = SKURecord.product_name r).
Proof.
  assert (Hreach : reachable upper_latin1 int_ascii
                     (run upper_latin1 int_ascii sample_later sample_db)).
  { exists (sample_setup ++ sample_later). reflexivity. }
  split; [exact Hreach|].
  exact (proj2 (stored_rows_are_well_formed upper_latin1 int_ascii _ Hreach)).
Defined.

(** ** Keys and recency *)

Lemma fold_max_from (a : Z) (l : list Z) :
  fold_right Z.max a l = Z.max a (fold_right Z.max 0 l) \/ a < 0.
Proof.
  destruct (Z_lt_le_dec a 0) as [H|H]; [right; exact H|left].
  induction l as [|x l IH]; cbn [fold_right]; lia.
Qed.

Lemma next_id_above (ids : list Z) (i : Z) : In i ids -> i < next_id ids.
Proof.
  unfold next_id. induction ids as [|x ids IH]; cbn [fold_right In]; [tauto|].
  intros [->|H]; [lia|]. specialize (IH H). lia.
Qed.

Lemma next_id_seq (n : nat) :
  next_id (map Z.of_nat (seq 1 n)) = Z.of_nat (S n).
Proof.
  unfold next_id. induction n as [|n IH].
  - reflexivity.
  - rewrite seq_S, map_app, fold_right_app.
    change (fold_right Z.max 0 (map Z.of_nat [(1 + n)%nat]))
      with (Z.max (Z.of_nat (1 + n)) 0).
    destruct (fold_max_from (Z.max (Z.of_nat (1 + n)) 0)
                (map Z.of_nat (seq 1 n))) as [E|E]; [|lia].
    rewrite E. lia.
Qed.

Lemma seq_ids_sorted (a n : nat) : StronglySorted Z.lt (map Z.of_nat (seq a n)).
Proof.
  revert a. induction n as [|n IH]; intros a; simpl; constructor.
  - apply IH.
  - apply Forall_forall. intros x Hx.
    apply in_map_iff in Hx. destruct Hx as (i & <- & Hi).
    apply in_seq in Hi. lia.
Qed.

Lemma sorted_of_map {A} (f : A -> Z) (l : list A) :
  StronglySorted Z.lt (map f l) -> StronglySorted (fun a b => f a < f b) l.
Proof.
  induction l as [|a l IH]; simpl; intros H; constructor;
    apply StronglySorted_inv in H; destruct H as [Hs Hall].
  - apply IH, Hs.
  - apply Forall_forall. intros x Hx.
    rewrite Forall_forall in Hall. apply Hall, in_map, Hx.
Qed.

Lemma sorted_filter {A} (R : A -> A -> Prop) (f : A -> bool) (l : list A) :
  StronglySorted R l -> StronglySorted R (filter f l).
Proof.
  induction 1 as [|a l Hs IH Hall]; simpl; [constructor|].
  destruct (f a); [|exact IH].
  constructor; [exact IH|].
  apply Forall_forall. intros x Hx. apply filter_In in Hx.
  rewrite Forall_forall in Hall. apply Hall, Hx.
Qed.

Lemma insert_desc_smallest (r : SKURecord.t) (l : list SKURecord.t) :
  (forall x, In x l -> SKURecord.id r < SKURecord.id x) ->
  insert_desc r l = l ++ [r].
Proof.
  induction l as [|x l IH]; intros H; simpl; [reflexivity|].
  destruct (SKURecord.id x <=? SKURecord.id r) eqn:E.
  - apply Z.leb_le in E. specialize (H x (or_introl eq_refl)). lia.
  - rewrite IH; [reflexivity|]. intros y Hy. apply H. right. exact Hy.
Qed.

Lemma order_by_id_desc_increasing (l : list SKURecord.t) :
  StronglySorted (fun a b => SKURecord.id a < SKURecord.id b) l ->
  order_by_id_desc l = rev l.
Proof.
  induction 1 as [|a l Hs IH Hall]; simpl; [reflexivity|].
  rewrite IH. apply insert_desc_smallest.
  intros x Hx. apply in_rev in Hx.
  rewrite Forall_forall in Hall. apply Hall, Hx.
Qed.

Section Keys.

Variable upper_char : char -> str.
Variable int_of_str : str -> option Z.

(** In a reachable store the rows of each table carry the keys 1, 2, ... in
    the order of insertion. *)
Lemma reachable_keys (db : DB) :
  reachable upper_char int_of_str db ->
  (forall v, map Vocab.id (table_of v db)
             = map Z.of_nat (seq 1 (length (table_of v db))))
  /\ map SKURecord.id (sku_records db)
     = map Z.of_nat (seq 1 (length (sku_records db))).
Proof.
  apply (reachable_invariant upper_char int_of_str
           (fun db =>
              (forall v, map Vocab.id (table_of v db)
                         = map Z.of_nat (seq 1 (length (table_of v db))))
              /\ map SKURecord.id (sku_records db)
                 = map Z.of_nat (seq 1 (length (sku_records db))))).
  - split; [intros []|]; reflexivity.
  - intros uid req d [Hv Hr].
    destruct (store_after_effect upper_char int_of_str uid req d)
      as [E | [(v0 & value & _ & _ & Ev & Eo & Er)
              | (sku & pn & _ & _ & _ & Er & Ev)]].
    + rewrite E. split; assumption.
    + split; [|rewrite Er; exact Hr].
      intros v. destruct (Vocabulary_eq_dec v v0) as [->|Hne].
      * rewrite Ev. unfold add_vocab.
        rewrite map_app, length_app, Nat.add_1_r, seq_S, map_app. simpl.
        rewrite (Hv v0) at 2. rewrite next_id_seq, <- (Hv v0). reflexivity.
      * rewrite (Eo v Hne). apply Hv.
    + split; [intros v; rewrite Ev; apply Hv|].
      rewrite Er. unfold add_sku_record.
      rewrite map_app, length_app, Nat.add_1_r, seq_S, map_app. simpl.
      rewrite Hr at 2. rewrite next_id_seq, <- Hr. reflexivity.
Qed.

End Keys.

(** X12: keys follow the order of generation, and the page lists the newest
    SKUs first.  In every reachable store the SKU records carry the keys
    1, 2, ..., n in the order in which they were generated, the next record
    will get the key n + 1, and the records shown to a user on the
    create-data page are that user's records in reverse order of generation,
    cut after ten. *)
Theorem recent_sku_records_newest_first :
  forall (upper_char : char -> str) (int_of_str : str -> option Z)
         (db : DB) (uid : Z),
    reachable upper_char int_of_str db ->
    map SKURecord.id (sku_records db)
    = map Z.of_nat (seq 1 (length (sku_records db)))
    /\ next_id (map SKURecord.id (sku_records db))
       = Z.of_nat (length (sku_records db)) + 1
    /\ rendered_records (fst (create_data uid GET db))
       = firstn 10 (rev (filter (fun r => SKURecord.user_id r =? uid)
                           (sku_records db))).
Proof.
  intros up int db uid Hreach.
  pose proof (proj2 (reachable_keys up int db Hreach)) as Hkeys.
  split; [exact Hkeys|]. split.
  - rewrite Hkeys, next_id_seq. lia.
  - change (rendered_records (fst (create_data uid GET db)))
      with (recent_sku_records (sku_records db) uid).
    unfold recent_sku_records. f_equal.
    apply order_by_id_desc_increasing, sorted_filter.
    apply (sorted_of_map SKURecord.id).
    rewrite Hkeys. apply seq_ids_sorted.
Qed.

Lemma recent_sku_records_newest_first_witness :
  reachable upper_latin1 int_ascii (run upper_latin1 int_ascii sample_later sample_db)
  /\ map SKURecord.id
       (sku_records (run upper_latin1 int_ascii sample_later sample_db)) = [1; 2]
  /\ next_id (map SKURecord.id
                (sku_records (run upper_latin1 int_ascii sample_later sample_db)))
     = 3
  /\ rendered_records
       (fst (create_data 1 GET (run upper_latin1 int_ascii sample_later sample_db)))
     = [ {| SKURecord.id := 2; SKURecord.sku := lit "____POL__3";
            SKURecord.product_name := lit "Polo"; SKURecord.user_id := 1 |} ].
Proof.
  assert (Hreach : reachable upper_latin1 int_ascii
                     (run upper_latin1 int_ascii sample_later sample_db)).
  { exists (sample_setup ++ sample_later). reflexivity. }
  split; [exact Hreach|].
  exact (recent_sku_records_newest_first upper_latin1 int_ascii _ 1 Hreach).
Defined.

(** ** The listing of recent records on any table *)

Lemma insert_desc_in (r x : SKURecord.t) (l : list SKURecord.t) :
  x = r \/ In x l -> In x (insert_desc r l).
Proof.
  induction l as [|a l IH]; simpl.
  - intros [->|[]]. left. reflexivity.
  - destruct (SKURecord.id a <=? SKURecord.id r); simpl.
    + intros [->|H]; auto.
    + intros [->|[->|H]]; auto.
Qed.

Lemma order_by_id_desc_in (x : SKURecord.t) (l : list SKURecord.t) :
  In x l -> In x (order_by_id_desc l).
Proof.
  induction l as [|a l IH]; simpl; [tauto|].
  intros [->|H]; apply insert_desc_in; auto.
Qed.

Lemma insert_desc_length (r : SKURecord.t) (l : list SKURecord.t) :
  length (insert_desc r l) = S (length l).
Proof.
  induction l as [|a l IH]; simpl; [reflexivity|].
  destruct (SKURecord.id a <=? SKURecord.id r); simpl; congruence.
Qed.

Lemma order_by_id_desc_length (l : list SKURecord.t) :
  length (order_by_id_desc l) = length l.
Proof.
  induction l as [|a l IH]; simpl; [reflexivity|].
  rewrite insert_desc_length, IH. reflexivity.
Qed.

Lemma insert_desc_sorted (r : SKURecord.t) (l : list SKURecord.t) :
  StronglySorted (fun a b => SKURecord.id b <= SKURecord.id a) l ->
  StronglySorted (fun a b => SKURecord.id b <= SKURecord.id a) (insert_desc r l).
Proof.
  induction 1 as [|a l Hs IH Hall]; simpl.
  - constructor; constructor.
  - rewrite Forall_forall in Hall.
    destruct (SKURecord.id a <=? SKURecord.id r) eqn:E.
    + apply Z.leb_le in E. constructor; [constructor; [exact Hs|]|].
      * apply Forall_forall. exact Hall.
      * apply Forall_forall. intros x [<-|Hx]; [exact E|].
        specialize (Hall x Hx). simpl in Hall. lia.
    + apply Z.leb_gt in E. constructor; [exact IH|].
      apply Forall_forall. intros x Hx. apply in_insert_desc in Hx.
      destruct Hx as [->|Hx]; [lia | apply Hall, Hx].
Qed.

Lemma order_by_id_desc_sorted (l : list SKURecord.t) :
  StronglySorted (fun a b => SKURecord.id b <= SKURecord.id a) (order_by_id_desc l).
Proof.
  induction l as [|a l IH]; simpl; [constructor|].
  apply insert_desc_sorted, IH.
Qed.

Lemma sorted_app_inv {A} (R : A -> A -> Prop) (l1 l2 : list A) :
  StronglySorted R (l1 ++ l2) ->
  StronglySorted R l1 /\ forall y x, In y l1 -> In x l2 -> R y x.
Proof.
  induction l1 as [|a l1 IH]; simpl; intros H.
  - split; [constructor|]. intros y x [].
  - apply StronglySorted_inv in H. destruct H as [Hs Hall].
    destruct (IH Hs) as [Hs1 Hcross]. rewrite Forall_forall in Hall.
    split.
    + constructor; [exact Hs1|]. apply Forall_forall.
      intros x Hx. apply Hall, in_or_app. left. exact Hx.
    + intros y x [<-|Hy] Hx; [|apply Hcross; assumption].
      apply Hall, in_or_app. right. exact Hx.
Qed.

(** X13: on any table, the listing of a user's recent records has at most
    ten rows, all of them records of that user from the table, in descending
    order of id; a record of the user that is left out has an id no larger
    than that of any listed record, and none is left out while the user has
    at most ten. *)
Theorem recent_sku_records_top_ten :
  forall (table : list SKURecord.t) (uid : Z),
    (length (recent_sku_records table uid) <= 10)%nat
    /\ StronglySorted (fun a b => SKURecord.id b <= SKURecord.id a)
         (recent_sku_records table uid)
    /\ (forall r, In r (recent_sku_records table uid) ->
                  In r table /\ SKURecord.user_id r = uid)
    /\ (forall x y,
           In x table -> SKURecord.user_id x = uid ->
           ~ In x (recent_sku_records table uid) ->
           In y (recent_sku_records table uid) ->
           SKURecord.id x <= SKURecord.id y)
    /\ ((length (filter (fun r => (SKURecord.user_id r =? uid)%Z) table) <= 10)%nat ->
        forall x, In x table -> SKURecord.user_id x = uid ->
                  In x (recent_sku_records table uid)).
Proof.
  intros table uid. unfold recent_sku_records.
  set (mine := filter (fun r => SKURecord.user_id r =? uid) table).
  assert (Hsorted := order_by_id_desc_sorted mine).
  assert (Hmine : forall x, In x table -> SKURecord.user_id x = uid ->
                            In x (order_by_id_desc mine)).
  { intros x Hx Hu. apply order_by_id_desc_in, filter_In.
    split; [exact Hx | apply Z.eqb_eq, Hu]. }
  rewrite <- (firstn_skipn 10 (order_by_id_desc mine)) in Hsorted.
  apply sorted_app_inv in Hsorted. destruct Hsorted as [Hs Hcross].
  split; [apply firstn_le_length|]. split; [exact Hs|]. split; [|split].
  - intros r Hr. apply (recent_sku_records_owner table uid r Hr).
  - intros x y Hx Hu Hout Hy.
    specialize (Hmine x Hx Hu).
    rewrite <- (firstn_skipn 10 (order_by_id_desc mine)) in Hmine.
    apply in_app_or in Hmine. destruct Hmine as [Hin|Hin]; [contradiction|].
    apply (Hcross y x Hy Hin).
  - intros Hlen x Hx Hu. rewrite firstn_all2; [apply Hmine; assumption|].
    rewrite order_by_id_desc_length. exact Hlen.
Qed.

(** ** The two routes, case by case *)

Lemma str_eqb_eq (a b : str) : str_eqb a b = true <-> a = b.
Proof.
  unfold str_eqb. destruct (list_eq_dec N.eq_dec a b); split; congruence.
Qed.

Lemma what_is_true (what : option str) (literal : string) :
  what_is what literal = true <-> what = Some (lit literal).
Proof.
  destruct what as [w|]; simpl.
  - rewrite str_eqb_eq. split; congruence.
  - split; discriminate.
Qed.

Lemma what_is_false (what : option str) (literal : string) :
  what <> Some (lit literal) -> what_is what literal = false.
Proof.
  intros H. destruct (what_is what literal) eqn:E; [|reflexivity].
  apply what_is_true in E. contradiction.
Qed.

Lemma app_one_neq {A} (l : list A) (x : A) : l ++ [x] <> l.
Proof.
  intros H. apply (f_equal (@length A)) in H. rewrite length_app in H.
  simpl in H. lia.
Qed.

Lemma create_data_appends (uid : Z) (form : Form) (db : DB) (v : Vocabulary) :
  form_get form "what" = Some (lit (what_of v)) ->
  Py.strip (form_get_default form "value" []) <> [] ->
  table_of v (snd (create_data uid (POST form) db))
  = table_of v db
    ++ [ {| Vocab.id := next_id (map Vocab.id (table_of v db));
            Vocab.name := Py.strip (form_get_default form "value" []);
            Vocab.user_id := uid |} ]
  /\ (forall v', v' <> v ->
                 table_of v' (snd (create_data uid (POST form) db)) = table_of v' db)
  /\ sku_records (snd (create_data uid (POST form) db)) = sku_records db.
Proof.
  intros Hwhat Hvalue. unfold create_data. rewrite Hwhat.
  destruct (Py.strip (form_get_default form "value" [])) as [|c value'] eqn:E;
    [congruence|].
  simpl Py.is_empty. cbv iota.
  destruct v; simpl; (split; [reflexivity|]); (split; [|reflexivity]);
    intros v' Hv'; destruct v'; try reflexivity; congruence.
Qed.

(** X14: a POST to create-data whose [what] is missing or names none of the
    three vocabularies is answered with the value warning when the value is
    blank and with "Unknown type" otherwise, and stores nothing; and the
    store is left unchanged by a POST only in these cases or for a blank
    value. *)
Theorem create_data_unknown_type :
  forall (uid : Z) (form : Form) (db : DB),
    let value := Py.strip (form_get_default form "value" []) in
    ((forall v, form_get form "what" <> Some (lit (what_of v))) ->
     create_data uid (POST form) db
     = (if Py.is_empty value
        then Redirect "create_data" (lit "Please enter a value.") warning
        else Redirect "create_data" (lit "Unknown type") danger, db))
    /\ (snd (create_data uid (POST form) db) = db <->
        value = [] \/ forall v, form_get form "what" <> Some (lit (what_of v))).
Proof.
  intros uid form db value.
  assert (Hunknown :
            (forall v, form_get form "what" <> Some (lit (what_of v))) ->
            create_data uid (POST form) db
            = (if Py.is_empty value
               then Redirect "create_data" (lit "Please enter a value.") warning
               else Redirect "create_data" (lit "Unknown type") danger, db)).
  { intros H. unfold create_data. fold value.
    rewrite (what_is_false _ "product_type" (H product_type)).
    rewrite (what_is_false _ "collection" (H collection)).
    rewrite (what_is_false _ "color" (H color)).
    destruct (Py.is_empty value); reflexivity. }
  split; [exact Hunknown|]. split.
  - intros Hsame. destruct value as [|c value'] eqn:Ev; [left; reflexivity|].
    right. intros v Hv.
    destruct (create_data_appends uid form db v Hv) as (Ht & _).
    { fold value. rewrite Ev. discriminate. }
    rewrite Hsame in Ht. symmetry in Ht. revert Ht. apply app_one_neq.
  - intros [Hv|Hw].
    + unfold create_data. fold value. rewrite Hv. reflexivity.
    + rewrite (Hunknown Hw). reflexivity.
Qed.

Lemma create_data_unknown_type_witness :
  create_data 1 (POST [("what"%string, lit "size"); ("value"%string, lit "XL")])
    sample_db
  = (Redirect "create_data" (lit "Unknown type") danger, sample_db).
Proof.
  refine (proj1 (create_data_unknown_type 1
                   [("what"%string, lit "size"); ("value"%string, lit "XL")]
                   sample_db) _).
  intros []; discriminate.
Defined.

Section RouteCases.

Variable upper_char : char -> str.
Variable int_of_str : str -> option Z.

Lemma find_app_none {A} (f : A -> bool) (l l' : list A) :
  find f l = None -> find f (l ++ l') = find f l'.
Proof.
  induction l as [|a l IH]; simpl; [reflexivity|].
  destruct (f a); [discriminate | exact IH].
Qed.

Lemma find_fresh_id (table : list Vocab.t) (uid : Z) :
  find (fun r => (Vocab.id r =? next_id (map Vocab.id table))
                 && (Vocab.user_id r =? uid)) table = None.
Proof.
  apply find_all_false. intros r Hr.
  apply andb_false_intro1. apply Z.eqb_neq.
  pose proof (next_id_above (map Vocab.id table) (Vocab.id r) (in_map _ _ _ Hr)).
  lia.
Qed.

Lemma resolve_some (table : list Vocab.t) (raw_id : option str) (uid : Z)
    (r : Vocab.t) :
  resolve int_of_str table raw_id uid = Ok (Some r) ->
  In r table /\ Vocab.user_id r = uid
  /\ exists s, raw_id = Some s /\ s <> [] /\ int_of_str s = Some (Vocab.id r).
Proof.
  unfold resolve. destruct raw_id as [s|]; [|discriminate].
  destruct s as [|c s]; [discriminate|]. simpl Py.is_empty. cbv iota.
  destruct (int_of_str (c :: s)) as [i|] eqn:Ei; [|discriminate].
  unfold first_by_id_user. destruct (sqlite_integer i); [|discriminate].
  intros H. injection H as H. apply find_some in H.
  destruct H as [Hin Hb]. apply andb_prop in Hb. destruct Hb as [Hi Hu].
  apply Z.eqb_eq in Hi. apply Z.eqb_eq in Hu.
  split; [exact Hin|]. split; [exact Hu|].
  exists (c :: s). split; [reflexivity|]. split; [discriminate|]. congruence.
Qed.

Lemma resolve_raise (table : list Vocab.t) (raw_id : option str) (uid : Z)
    (e : exn) :
  resolve int_of_str table raw_id uid = Raise e ->
  e = OverflowError
  /\ exists s i, raw_id = Some s /\ s <> [] /\ int_of_str s = Some i
                 /\ sqlite_integer i = false.
Proof.
  unfold resolve. destruct raw_id as [s|]; [|discriminate].
  destruct s as [|c s]; [discriminate|]. simpl Py.is_empty. cbv iota.
  destruct (int_of_str (c :: s)) as [i|] eqn:Ei; [|discriminate].
  unfold first_by_id_user. destruct (sqlite_integer i) eqn:Er; [discriminate|].
  intros H. injection H as <-. split; [reflexivity|].
  exists (c :: s), i. split; [reflexivity|]. split; [discriminate|].
  split; [exact Ei | exact Er].
Qed.

End RouteCases.

(** X15: a POST to generate-sku raises in two cases only, both with a product
    name that is not blank: OverflowError when a submitted product type,
    collection or color id is a number that SQLite cannot bind, and otherwise
    IndexError when the submitted size is the empty string; a GET never raises
    and shows the four sizes 1 to 4. *)
Theorem generate_sku_raises_iff :
  forall (upper_char : char -> str) (int_of_str : str -> option Z)
         (uid : Z) (form : Form) (db : DB) (e : exn),
    let overflow :=
      overflows int_of_str (form_get form "product_type")
      || overflows int_of_str (form_get form "collection")
      || overflows int_of_str (form_get form "color") in
    (generate_sku upper_char int_of_str uid (POST form) db = Raise e <->
     Py.strip (form_get_default form "product_name" []) <> []
     /\ ((e = OverflowError /\ overflow = true)
         \/ (e = IndexError /\ overflow = false
             /\ form_get form "size" = Some [])))
    /\ exists product_types collections colors,
         generate_sku upper_char int_of_str uid GET db
         = Ok (RenderGenerateSku product_types collections colors
                 [lit "1"; lit "2"; lit "3"; lit "4"], db).
Proof.
  intros up int uid form db e overflow. split; [|simpl; eauto].
  destruct (generate_sku_post up int uid form db)
    as [[Hpn E] | [(Hpn & O & E) | [(Hpn & O & Hsize & E)
       | (Hpn & O & Hsize & ptype & coll & color & sku & _ & _ & _ & _ & _ & E)]]];
    try fold overflow in O; rewrite E; split.
  - discriminate.
  - intros [H _]. contradiction.
  - intros H. injection H as <-. auto.
  - intros [_ [[-> _] | [_ [H _]]]]; [reflexivity | congruence].
  - intros H. injection H as <-. auto.
  - intros [_ [[_ H] | [-> _]]]; [congruence | reflexivity].
  - discriminate.
  - intros [_ [[_ H] | [_ [_ H]]]]; [congruence | contradiction].
Qed.

(** X16: when a [try] block of generate-sku comes through, the label it
    yields is empty or is the name of an entry of that vocabulary which the
    requesting user owns and whose id is the number the submitted, non-empty
    id parses to, so the label of another user's entry is never used; it
    fails only with OverflowError, on a submitted number that SQLite cannot
    bind. *)
Theorem resolved_label_is_own_entry :
  forall (int_of_str : str -> option Z) (table : list Vocab.t)
         (raw_id : option str) (uid : Z),
    match resolve int_of_str table raw_id uid with
    | Ok row =>
        name_or_empty row = []
        \/ exists r s,
             In r table /\ Vocab.user_id r = uid
             /\ raw_id = Some s /\ s <> [] /\ int_of_str s = Some (Vocab.id r)
             /\ name_or_empty row = Vocab.name r
    | Raise e =>
        e = OverflowError
        /\ exists s i, raw_id = Some s /\ s <> [] /\ int_of_str s = Some i
                       /\ sqlite_integer i = false
    end.
Proof.
  intros int table raw uid.
  destruct (resolve int table raw uid) as [[r|]|e] eqn:E.
  - right. destruct (resolve_some int table raw uid r E) as (Hin & Hu & s & Hs & Hne & Hi).
    exists r, s. repeat split; assumption.
  - left. reflexivity.
  - apply (resolve_raise int table raw uid e E).
Qed.

(** X17: an entry just added can be chosen by its id.  After a POST to
    create-data has added a label to a vocabulary, an id that parses to the
    new entry's key, a key SQLite can bind, resolves for the user who added it
    to the new entry, whose name is the stripped label; for any other user it
    resolves to no entry, hence to the empty label. *)
Theorem added_entry_resolves :
  forall (int_of_str : str -> option Z) (uid : Z) (form : Form) (db : DB)
         (v : Vocabulary) (s : str),
    let value := Py.strip (form_get_default form "value" []) in
    let db' := snd (create_data uid (POST form) db) in
    let key := next_id (map Vocab.id (table_of v db)) in
    form_get form "what" = Some (lit (what_of v)) ->
    value <> [] ->
    s <> [] ->
    int_of_str s = Some key ->
    sqlite_integer key = true ->
    (exists row,
        resolve int_of_str (table_of v db') (Some s) uid = Ok row
        /\ row = Some {| Vocab.id := key; Vocab.name := value; Vocab.user_id := uid |}
        /\ name_or_empty row = value)
    /\ forall other, other <> uid ->
         exists row,
           resolve int_of_str (table_of v db') (Some s) other = Ok row
           /\ name_or_empty row = [].
Proof.
  intros int uid form db v s value db' key Hwhat Hvalue Hs Hint Hrange.
  destruct (create_data_appends uid form db v Hwhat Hvalue) as (Ht & _).
  fold db' in Ht. fold value in Ht. fold key in Ht. rewrite Ht.
  unfold resolve. destruct s as [|c s]; [congruence|]. simpl Py.is_empty.
  cbv iota. rewrite Hint. unfold first_by_id_user. rewrite Hrange.
  split; [|intros other Hother]; eexists; (split; [reflexivity|]);
    rewrite find_app_none by apply find_fresh_id; simpl;
    rewrite Z.eqb_refl; simpl.
  - rewrite Z.eqb_refl. split; reflexivity.
  - destruct (Z.eqb_spec uid other); [congruence | reflexivity].
Qed.

Lemma added_entry_resolves_witness :
  (exists row,
      resolve int_ascii (table_of color (snd (create_data 2 (POST blue_form) sample_db)))
        (Some (lit "2")) 2 = Ok row
      /\ row = Some {| Vocab.id := 2; Vocab.name := lit "Blue"; Vocab.user_id := 2 |}
      /\ name_or_empty row = lit "Blue")
  /\ forall other, other <> 2 ->
       exists row,
         resolve int_ascii
           (table_of color (snd (create_data 2 (POST blue_form) sample_db)))
           (Some (lit "2")) other = Ok row
         /\ name_or_empty row = [].
Proof.
  apply (added_entry_resolves int_ascii 2 blue_form sample_db color (lit "2")).
  - reflexivity.
  - vm_compute. discriminate.
  - discriminate.
  - reflexivity.
  - reflexivity.
Defined.

(** ** Writing, then reading *)

Lemma insert_desc_below (r x : SKURecord.t) (l : list SKURecord.t) :
  SKURecord.id r < SKURecord.id x ->
  insert_desc r (x :: l) = x :: insert_desc r l.
Proof.
  intros H. simpl.
  destruct (SKURecord.id x <=? SKURecord.id r) eqn:E; [|reflexivity].
  apply Z.leb_le in E. lia.
Qed.

Lemma order_by_id_desc_newest (l : list SKURecord.t) (x : SKURecord.t) :
  (forall y, In y l -> SKURecord.id y < SKURecord.id x) ->
  order_by_id_desc (l ++ [x]) = x :: order_by_id_desc l.
Proof.
  unfold order_by_id_desc. induction l as [|a l IH]; intros H; simpl.
  - reflexivity.
  - rewrite IH by (intros y Hy; apply H; right; exact Hy).
    apply insert_desc_below, H. left. reflexivity.
Qed.

Section WriteRead.

Variable upper_char : char -> str.
Variable int_of_str : str -> option Z.

Lemma recent_after_add (table : list SKURecord.t) (sku pn : str) (uid : Z) :
  recent_sku_records (add_sku_record table sku pn uid) uid
  = {| SKURecord.id := next_id (map SKURecord.id table);
       SKURecord.sku := sku;
       SKURecord.product_name := pn;
       SKURecord.user_id := uid |}
    :: firstn 9 (recent_sku_records table uid).
Proof.
  unfold recent_sku_records, add_sku_record.
  rewrite filter_app. cbn [filter SKURecord.user_id]. rewrite Z.eqb_refl.
  rewrite order_by_id_desc_newest.
  - rewrite firstn_cons, firstn_firstn. reflexivity.
  - intros y Hy. apply filter_In in Hy. destruct Hy as [Hy _]. simpl.
    apply next_id_above, in_map, Hy.
Qed.

End WriteRead.

(** X18: a generated SKU heads the list.  After a POST to generate-sku with
    a product name that is not blank, a size that is absent or not empty and
    no id that is a number SQLite cannot bind, the create-data page of the
    same user shows the new record first, followed by the first nine of the
    records it showed before. *)
Theorem generated_record_is_listed_first :
  forall (upper_char : char -> str) (int_of_str : str -> option Z)
         (uid : Z) (form : Form) (db : DB),
    let product_name_text := Py.strip (form_get_default form "product_name" []) in
    product_name_text <> [] ->
    form_get form "size" <> Some [] ->
    overflows int_of_str (form_get form "product_type")
    || overflows int_of_str (form_get form "collection")
    || overflows int_of_str (form_get form "color") = false ->
    exists sku db',
      generate_sku upper_char int_of_str uid (POST form) db
      = Ok (Redirect "create_data" (lit "SKU generated: " ++ sku) success, db')
      /\ rendered_records (fst (create_data uid GET db'))
         = {| SKURecord.id := next_id (map SKURecord.id (sku_records db));
              SKURecord.sku := sku;
              SKURecord.product_name := product_name_text;
              SKURecord.user_id := uid |}
           :: firstn 9 (rendered_records (fst (create_data uid GET db))).
Proof.
  intros up int uid form db pn Hpn Hsize Hover.
  destruct (generate_sku_bad_reference_in_range up int uid form db Hpn Hsize Hover)
    as (ptype & coll & color & sku & _ & _ & _ & _ & _ & _ & _ & Hgen).
  eexists sku, _. split; [exact Hgen|].
  apply recent_after_add.
Qed.

Lemma generated_record_is_listed_first_witness :
  exists sku db',
    generate_sku upper_latin1 int_ascii 1 (POST sample_form) sample_db
    = Ok (Redirect "create_data" (lit "SKU generated: " ++ sku) success, db')
    /\ rendered_records (fst (create_data 1 GET db'))
       = [ {| SKURecord.id := 1; SKURecord.sku := sku;
              SKURecord.product_name := lit "Polo"; SKURecord.user_id := 1 |} ].
Proof.
  apply (generated_record_is_listed_first upper_latin1 int_ascii 1 sample_form
           sample_db).
  - vm_compute. discriminate.
  - vm_compute. discriminate.
  - reflexivity.
Defined.

(** X19: the store does not deduplicate.  Sending twice the same
    generate-sku request, with a product name that is not blank, a size that
    is absent or not empty and no id that is a number SQLite cannot bind,
    appends two records with the same code and product name for the user, the
    second with a larger id. *)
Theorem regeneration_appends_equal_codes :
  forall (upper_char : char -> str) (int_of_str : str -> option Z)
         (uid : Z) (form : Form) (db : DB),
    Py.strip (form_get_default form "product_name" []) <> [] ->
    form_get form "size" <> Some [] ->
    overflows int_of_str (form_get form "product_type")
    || overflows int_of_str (form_get form "collection")
    || overflows int_of_str (form_get form "color") = false ->
    exists r1 r2,
      sku_records
        (run upper_char int_of_str
           [(uid, GenerateSku (POST form)); (uid, GenerateSku (POST form))] db)
      = sku_records db ++ [r1; r2]
      /\ SKURecord.sku r1 = SKURecord.sku r2
      /\ SKURecord.product_name r1 = SKURecord.product_name r2
      /\ SKURecord.user_id r1 = uid /\ SKURecord.user_id r2 = uid
      /\ SKURecord.id r1 < SKURecord.id r2.
Proof.
  intros up int uid form db Hpn Hsize Hover.
  destruct (generate_sku_bad_reference_in_range up int uid form db Hpn Hsize Hover)
    as (ptype & coll & color & sku & R1 & R2 & R3 & _ & _ & _ & Hsku & Hgen).
  unfold run, store_after. rewrite Hgen. cbv beta iota.
  match goal with
  | |- context [generate_sku up int uid (POST form) ?d] => set (db1 := d)
  end.
  destruct (generate_sku_bad_reference_in_range up int uid form db1 Hpn Hsize Hover)
    as (ptype' & coll' & color' & sku' & R1' & R2' & R3' & _ & _ & _ & Hsku' & Hgen').
  cbn [product_types collections colors db1] in R1', R2', R3'.
  rewrite R1 in R1'. rewrite R2 in R2'. rewrite R3 in R3'.
  injection R1' as <-. injection R2' as <-. injection R3' as <-.
  rewrite Hsku in Hsku'. injection Hsku' as <-.
  rewrite Hgen'. cbn [sku_records db1].
  eexists _, _. split; [rewrite <- app_assoc; reflexivity|].
  cbn [SKURecord.sku SKURecord.product_name SKURecord.user_id SKURecord.id].
  repeat split.
  apply next_id_above. rewrite map_app. apply in_or_app. right. left. reflexivity.
Qed.

Lemma regeneration_appends_equal_codes_witness :
  exists r1 r2,
    sku_records
      (run upper_latin1 int_ascii
         [(1, GenerateSku (POST sample_form)); (1, GenerateSku (POST sample_form))]
         sample_db)
    = sku_records sample_db ++ [r1; r2]
    /\ SKURecord.sku r1 = SKURecord.sku r2
    /\ SKURecord.product_name r1 = SKURecord.product_name r2
    /\ SKURecord.user_id r1 = 1 /\ SKURecord.user_id r2 = 1
    /\ SKURecord.id r1 < SKURecord.id r2.
Proof.
  apply (regeneration_appends_equal_codes upper_latin1 int_ascii 1 sample_form
           sample_db).
  - vm_compute. discriminate.
  - vm_compute. discriminate.
  - reflexivity.
Defined.

(** X20: an added entry is offered on both pages.  After a POST to
    create-data has added a label to a vocabulary, the entries of that
    vocabulary shown to the same user are those shown before followed by the
    new entry, and both pages carry it. *)
Theorem added_entry_is_listed :
  forall (upper_char : char -> str) (int_of_str : str -> option Z)
         (uid : Z) (form : Form) (db : DB) (v : Vocabulary),
    let value := Py.strip (form_get_default form "value" []) in
    let db' := snd (create_data uid (POST form) db) in
    let entry := {| Vocab.id := next_id (map Vocab.id (table_of v db));
                    Vocab.name := value;
                    Vocab.user_id := uid |} in
    form_get form "what" = Some (lit (what_of v)) ->
    value <> [] ->
    filter_by_user (table_of v db') uid
    = filter_by_user (table_of v db) uid ++ [entry]
    /\ forall page, In page (pages_of upper_char int_of_str uid db') ->
                    In entry (rendered_vocab page).
Proof.
  intros up int uid form db v value db' entry Hwhat Hvalue.
  destruct (create_data_appends uid form db v Hwhat Hvalue) as (Ht & _).
  fold db' in Ht. fold value in Ht. fold entry in Ht.
  assert (Hf : filter_by_user (table_of v db') uid
               = filter_by_user (table_of v db) uid ++ [entry]).
  { rewrite Ht. unfold filter_by_user. rewrite filter_app. simpl.
    rewrite Z.eqb_refl. reflexivity. }
  split; [exact Hf|].
  assert (Hin : In entry (filter_by_user (product_types db') uid
                          ++ filter_by_user (collections db') uid
                          ++ filter_by_user (colors db') uid)).
  { assert (He : In entry (filter_by_user (table_of v db') uid)).
    { rewrite Hf. apply in_or_app. right. left. reflexivity. }
    destruct v; simpl in He; repeat (apply in_or_app; auto; right); auto. }
  unfold pages_of. simpl. intros page [<-|[<-|[]]]; exact Hin.
Qed.

Lemma added_entry_is_listed_witness :
  filter_by_user (table_of color (snd (create_data 1 (POST blue_form) sample_db))) 1
  = filter_by_user (table_of color sample_db) 1
    ++ [ {| Vocab.id := 2; Vocab.name := lit "Blue"; Vocab.user_id := 1 |} ]
  /\ forall page,
       In page (pages_of upper_latin1 int_ascii 1
                  (snd (create_data 1 (POST blue_form) sample_db))) ->
       In {| Vocab.id := 2; Vocab.name := lit "Blue"; Vocab.user_id := 1 |}
          (rendered_vocab page).
Proof.
  apply (added_entry_is_listed upper_latin1 int_ascii 1 blue_form sample_db color).
  - reflexivity.
  - vm_compute. discriminate.
Defined.

(** ** Accounts *)

Lemma NoDup_snoc {A} (l : list A) (x : A) : NoDup l -> ~ In x l -> NoDup (l ++ [x]).
Proof.
  induction 1 as [|a l Ha Hl IH]; simpl; intros Hx.
  - constructor; [tauto | constructor].
  - constructor.
    + intros Hin. apply in_app_or in Hin. destruct Hin as [Hin|[<-|[]]]; tauto.
    + apply IH. tauto.
Qed.

Lemma find_exists {A} (f : A -> bool) (l : list A) (x : A) :
  In x l -> f x = true -> exists y, find f l = Some y.
Proof.
  induction l as [|a l IH]; simpl; [tauto|].
  intros [->|Hin] Hx.
  - rewrite Hx. eauto.
  - destruct (f a); eauto.
Qed.

Section AccountFacts.

Variable lower : str -> str.
Variable Salt : Type.
Variable generate_password_hash : Salt -> str -> str.
Variable check_password_hash : str -> str -> bool.
Variable csrf_valid : Form -> bool.
Variable unauthorized : Page.

Lemma first_by_email_none (table : list User.t) (e : str) :
  first_by_email table e = None -> ~ In e (map User.email table).
Proof.
  unfold first_by_email. intros H Hin.
  apply in_map_iff in Hin. destruct Hin as (u & <- & Hu).
  pose proof (find_none _ _ H u Hu) as Hf. simpl in Hf.
  assert (E : str_eqb (User.email u) (User.email u) = true)
    by (apply str_eqb_eq; reflexivity).
  congruence.
Qed.

Lemma first_by_email_some (table : list User.t) (e : str) (u : User.t) :
  first_by_email table e = Some u -> In u table /\ User.email u = e.
Proof.
  unfold first_by_email. intros H. apply find_some in H.
  destruct H as [Hin He]. apply str_eqb_eq in He. auto.
Qed.

Lemma get_user_fresh (table : list User.t) :
  get_user table (next_id (map User.id table)) = None.
Proof.
  unfold get_user. apply find_all_false. intros u Hu. apply Z.eqb_neq.
  pose proof (next_id_above (map User.id table) (User.id u) (in_map _ _ _ Hu)).
  lia.
Qed.

(** What a request does to the accounts: nothing, a change of session to an
    existing account or to none, or one new account with a fresh id and an
    email no account had, which the session then names. *)
Lemma accounts_after_effect (req : AccountRequest Salt) (st : Accounts) :
  (users (accounts_after lower generate_password_hash check_password_hash
            csrf_valid unauthorized req st) = users st
   /\ (session (accounts_after lower generate_password_hash check_password_hash
                  csrf_valid unauthorized req st) = session st
       \/ session (accounts_after lower generate_password_hash check_password_hash
                     csrf_valid unauthorized req st) = None
       \/ exists u, In u (users st)
                    /\ session (accounts_after lower generate_password_hash
                                  check_password_hash csrf_valid unauthorized req st)
                       = Some (User.id u)))
  \/ exists u,
       users (accounts_after lower generate_password_hash check_password_hash
                csrf_valid unauthorized req st) = users st ++ [u]
       /\ session (accounts_after lower generate_password_hash check_password_hash
                     csrf_valid unauthorized req st) = Some (User.id u)
       /\ User.id u = next_id (map User.id (users st))
       /\ ~ In (User.email u) (map User.email (users st)).
Proof.
  destruct req as [salt method|method| |]; simpl.
  - unfold register.
    destruct (RegisterForm_validate_on_submit csrf_valid method); [|auto].
    destruct (first_by_email _ _) eqn:E; [auto|].
    right. eexists. simpl. repeat split. apply first_by_email_none. exact E.
  - unfold login.
    destruct (LoginForm_validate_on_submit csrf_valid method); [|auto].
    destruct (first_by_email _ _) as [u|] eqn:E; [|auto].
    destruct (check_password _ _ _); [|auto].
    left. simpl. split; [reflexivity|]. right. right. exists u.
    split; [|reflexivity]. apply (first_by_email_some _ _ _ E).
  - unfold logout. destruct (is_authenticated st); simpl; auto.
  - auto.
Qed.

Lemma accounts_run_invariant (P : Accounts -> Prop) :
  (forall req st,
      P st ->
      P (accounts_after lower generate_password_hash check_password_hash
           csrf_valid unauthorized req st)) ->
  forall trace st,
    P st ->
    P (accounts_run lower generate_password_hash check_password_hash
         csrf_valid unauthorized trace st).
Proof.
  intros Hstep trace. induction trace as [|req trace IH]; intros st H; simpl.
  - exact H.
  - apply IH, Hstep, H.
Qed.

Lemma accounts_reachable_ids (st : Accounts) :
  accounts_reachable lower generate_password_hash check_password_hash
    csrf_valid unauthorized st ->
  map User.id (users st) = map Z.of_nat (seq 1 (length (users st))).
Proof.
  intros [trace ->].
  apply (accounts_run_invariant
           (fun st => map User.id (users st)
                      = map Z.of_nat (seq 1 (length (users st))))).
  - intros req st Hids.
    destruct (accounts_after_effect req st)
      as [[Hu _] | (u & Hu & _ & Hid & _)]; rewrite Hu; [exact Hids|].
    rewrite map_app, length_app, Nat.add_1_r, seq_S, map_app. simpl.
    rewrite Hid. rewrite Hids at 2. rewrite next_id_seq, <- Hids.
    reflexivity.
  - reflexivity.
Qed.

End AccountFacts.

(** X21: accounts stay consistent.  After any run of register, login, logout
    and index requests, no two accounts have the same email, the ids are
    1, 2, ... in the order of registration, and the session names no account
    that does not exist. *)
Theorem accounts_are_consistent :
  forall (lower : str -> str) (Salt : Type)
         (generate_password_hash : Salt -> str -> str)
         (check_password_hash : str -> str -> bool)
         (csrf_valid : Form -> bool) (unauthorized : Page) (st : Accounts),
    accounts_reachable lower generate_password_hash check_password_hash
      csrf_valid unauthorized st ->
    NoDup (map User.email (users st))
    /\ map User.id (users st) = map Z.of_nat (seq 1 (length (users st)))
    /\ forall i, session st = Some i -> exists u, In u (users st) /\ User.id u = i.
Proof.
  intros lower Salt gen check csrf unauthorized st Hreach.
  pose proof (accounts_reachable_ids lower Salt gen check csrf unauthorized st Hreach)
    as Hids.
  split; [|split; [exact Hids|]]; clear Hids; destruct Hreach as [trace ->].
  - apply (accounts_run_invariant lower Salt gen check csrf unauthorized
             (fun st => NoDup (map User.email (users st)))); [|constructor].
    intros req st Hemails.
    destruct (accounts_after_effect lower Salt gen check csrf unauthorized req st)
      as [[Hu _] | (u & Hu & _ & _ & Hnew)]; rewrite Hu; [exact Hemails|].
    rewrite map_app. apply NoDup_snoc; assumption.
  - apply (accounts_run_invariant lower Salt gen check csrf unauthorized
             (fun st => forall i, session st = Some i ->
                                  exists u, In u (users st) /\ User.id u = i));
      [|discriminate].
    intros req st Hsession i Hi.
    destruct (accounts_after_effect lower Salt gen check csrf unauthorized req st)
      as [[Hu Hs] | (u & Hu & Hs & _ & _)]; rewrite Hu.
    + destruct Hs as [Hs | [Hs | (u & Hin & Hs)]].
      * apply Hsession. congruence.
      * congruence.
      * exists u. split; [exact Hin | congruence].
    + exists u. split; [|congruence].
      apply in_or_app. right. left. reflexivity.
Qed.

Lemma accounts_are_consistent_witness :
  accounts_reachable lower_ascii toy_hash toy_check toy_csrf (Rendered "login.html" [])
    (accounts_run lower_ascii toy_hash toy_check toy_csrf (Rendered "login.html" [])
       [Register (lit "s1") (POST ann_form); Logout;
        Register (lit "s2") (POST ann_login_form)] no_accounts)
  /\ map User.email
       (users
          (accounts_run lower_ascii toy_hash toy_check toy_csrf
             (Rendered "login.html" [])
             [Register (lit "s1") (POST ann_form); Logout;
              Register (lit "s2") (POST ann_login_form)] no_accounts))
     = [lit "ann@example.com"]
  /\ NoDup
       (map User.email
          (users
             (accounts_run lower_ascii toy_hash toy_check toy_csrf
                (Rendered "login.html" [])
                [Register (lit "s1") (POST ann_form); Logout;
                 Register (lit "s2") (POST ann_login_form)] no_accounts))).
Proof.
  assert (Hreach :
            accounts_reachable lower_ascii toy_hash toy_check toy_csrf
              (Rendered "login.html" [])
              (accounts_run lower_ascii toy_hash toy_check toy_csrf
                 (Rendered "login.html" [])
                 [Register (lit "s1") (POST ann_form); Logout;
                  Register (lit "s2") (POST ann_login_form)] no_accounts)).
  { eexists. reflexivity. }
  split; [exact Hreach|]. split; [reflexivity|].
  exact (proj1 (accounts_are_consistent lower_ascii (list char) toy_hash toy_check
                  toy_csrf (Rendered "login.html" []) _ Hreach)).
Defined.

(** X22: registering an email that an account already has, in any
    capitalisation that lowercases to it, creates nothing, changes no
    password, logs nobody in and sends the browser to the login page with a
    warning. *)
Theorem register_existing_email :
  forall (lower : str -> str) (Salt : Type)
         (generate_password_hash : Salt -> str -> str)
         (csrf_valid : Form -> bool) (salt : Salt) (method : Method)
         (st : Accounts) (u : User.t),
    RegisterForm_validate_on_submit csrf_valid method = true ->
    In u (users st) ->
    User.email u = lower (field_data method "email") ->
    register lower generate_password_hash csrf_valid salt method st
    = (Redirected "login" [(lit "User already exists. Please login.", warning)], st).
Proof.
  intros lower Salt gen csrf salt method st u Hvalid Hin Hemail.
  unfold register. rewrite Hvalid.
  destruct (find_exists (fun x => str_eqb (User.email x)
                                    (lower (field_data method "email")))
              (users st) u Hin) as (y & Hy).
  { apply str_eqb_eq. exact Hemail. }
  unfold first_by_email. rewrite Hy. reflexivity.
Qed.

Lemma register_existing_email_witness :
  register lower_ascii toy_hash toy_csrf (lit "s2") (POST ann_login_form)
    (snd (register lower_ascii toy_hash toy_csrf (lit "s1") (POST ann_form) no_accounts))
  = (Redirected "login" [(lit "User already exists. Please login.", warning)],
     snd (register lower_ascii toy_hash toy_csrf (lit "s1") (POST ann_form) no_accounts)).
Proof.
  apply (register_existing_email lower_ascii (list char) toy_hash toy_csrf (lit "s2")
           (POST ann_login_form) _
           {| User.id := 1; User.email := lit "ann@example.com";
              User.password_hash := lit "s1$secret1" |}).
  - reflexivity.
  - left. reflexivity.
  - reflexivity.
Defined.

(** X23: an account can be used right after it is made.  When a valid
    registration finds no account with the lowercased email, it appends one
    account, with that email and a fresh id, and logs it in; and if
    [check_password_hash] accepts what [generate_password_hash] made of a
    password, then a valid login form with the same password and an email
    that lowercases alike logs that account in, whoever the session named
    before. *)
Theorem register_then_login :
  forall (lower : str -> str) (Salt : Type)
         (generate_password_hash : Salt -> str -> str)
         (check_password_hash : str -> str -> bool)
         (csrf_valid : Form -> bool) (salt : Salt) (form form' : Form)
         (st : Accounts) (session' : option Z),
    (forall s p, check_password_hash (generate_password_hash s p) p = true) ->
    RegisterForm_validate_on_submit csrf_valid (POST form) = true ->
    first_by_email (users st) (lower (form_get_default form "email" [])) = None ->
    LoginForm_validate_on_submit csrf_valid (POST form') = true ->
    lower (form_get_default form' "email" []) = lower (form_get_default form "email" []) ->
    form_get_default form' "password" [] = form_get_default form "password" [] ->
    let account := {| User.id := next_id (map User.id (users st));
                      User.email := lower (form_get_default form "email" []);
                      User.password_hash :=
                        generate_password_hash salt
                          (form_get_default form "password" []) |} in
    register lower generate_password_hash csrf_valid salt (POST form) st
    = (Redirected "create_data" [(lit "Registered and logged in.", success)],
       {| users := users st ++ [account]; session := Some (User.id account) |})
    /\ login lower check_password_hash csrf_valid (POST form')
         {| users := users st ++ [account]; session := session' |}
       = (Redirected "create_data" [(lit "Logged in.", success)],
          {| users := users st ++ [account]; session := Some (User.id account) |}).
Proof.
  intros lower Salt gen check csrf salt form form' st session' Hcheck Hreg Hnew
         Hlog Hemail Hpwd account.
  split.
  - unfold register. rewrite Hreg. simpl field_data. rewrite Hnew. reflexivity.
  - unfold login. rewrite Hlog. simpl field_data. simpl users.
    rewrite Hemail, Hpwd. unfold first_by_email in *.
    rewrite (find_app_none _ _ _ Hnew). simpl.
    assert (E : str_eqb (lower (form_get_default form "email" []))
                  (lower (form_get_default form "email" [])) = true)
      by (apply str_eqb_eq; reflexivity).
    rewrite E. unfold check_password. simpl. rewrite Hcheck. reflexivity.
Qed.

Lemma toy_check_hash (s p : str) : toy_check (toy_hash s p) p = true.
Proof.
  unfold toy_check, toy_hash. apply str_eqb_eq.
  rewrite app_assoc, length_app.
  replace (length (s ++ lit "$") + length p - length p)%nat
    with (length (s ++ lit "$")) by lia.
  rewrite skipn_app, skipn_all, Nat.sub_diag. reflexivity.
Qed.

Lemma register_then_login_witness :
  register lower_ascii toy_hash toy_csrf (lit "s1") (POST ann_form) no_accounts
  = (Redirected "create_data" [(lit "Registered and logged in.", success)],
     {| users := [ {| User.id := 1; User.email := lit "ann@example.com";
                      User.password_hash := lit "s1$secret1" |} ];
        session := Some 1 |})
  /\ login lower_ascii toy_check toy_csrf (POST ann_login_form)
       {| users := [ {| User.id := 1; User.email := lit "ann@example.com";
                        User.password_hash := lit "s1$secret1" |} ];
          session := None |}
     = (Redirected "create_data" [(lit "Logged in.", success)],
        {| users := [ {| User.id := 1; User.email := lit "ann@example.com";
                         User.password_hash := lit "s1$secret1" |} ];
           session := Some 1 |}).
Proof.
  apply (register_then_login lower_ascii (list char) toy_hash toy_check toy_csrf
           (lit "s1") ann_form ann_login_form no_accounts None).
  - exact toy_check_hash.
  - reflexivity.
  - reflexivity.
  - reflexivity.
  - reflexivity.
  - reflexivity.
Defined.

(** X24: login never touches the user table and ends in one of three ways.
    A valid form whose lowercased email is the stored email of exactly one
    account, with a password that the account's hash accepts, logs that
    account in and redirects to create-data, and the session changes in no
    other case; a valid form for which every account with that email
    rejects the password, as when no account has the email, is answered with
    "Invalid credentials." and changes nothing, the same for an unknown
    email and for a wrong password; an invalid form or a GET shows the login
    page and changes nothing. *)
Theorem login_is_sound :
  forall (lower : str -> str) (check_password_hash : str -> str -> bool)
         (csrf_valid : Form -> bool) (method : Method) (st : Accounts),
    let email := lower (field_data method "email") in
    let password := field_data method "password" in
    users (snd (login lower check_password_hash csrf_valid method st)) = users st
    /\ (forall u,
           LoginForm_validate_on_submit csrf_valid method = true ->
           In u (users st) -> User.email u = email ->
           (forall u', In u' (users st) -> User.email u' = email -> u' = u) ->
           check_password check_password_hash u password = true ->
           login lower check_password_hash csrf_valid method st
           = (Redirected "create_data" [(lit "Logged in.", success)],
              {| users := users st; session := Some (User.id u) |}))
    /\ (LoginForm_validate_on_submit csrf_valid method = true ->
        (forall u, In u (users st) -> User.email u = email ->
                   check_password check_password_hash u password = false) ->
        login lower check_password_hash csrf_valid method st
        = (Rendered "login.html" [(lit "Invalid credentials.", danger)], st))
    /\ (LoginForm_validate_on_submit csrf_valid method = false ->
        login lower check_password_hash csrf_valid method st
        = (Rendered "login.html" [], st))
    /\ ((exists u,
            LoginForm_validate_on_submit csrf_valid method = true
            /\ In u (users st) /\ User.email u = email
            /\ check_password check_password_hash u password = true
            /\ login lower check_password_hash csrf_valid method st
               = (Redirected "create_data" [(lit "Logged in.", success)],
                  {| users := users st; session := Some (User.id u) |}))
        \/ (LoginForm_validate_on_submit csrf_valid method = true
            /\ login lower check_password_hash csrf_valid method st
               = (Rendered "login.html" [(lit "Invalid credentials.", danger)], st))
        \/ (LoginForm_validate_on_submit csrf_valid method = false
            /\ login lower check_password_hash csrf_valid method st
               = (Rendered "login.html" [], st))).
Proof.
  intros lower check csrf method st email password. unfold login.
  fold email. fold password.
  destruct (LoginForm_validate_on_submit csrf method) eqn:Hv.
  - destruct (first_by_email (users st) email) as [u|] eqn:E.
    + destruct (first_by_email_some _ _ _ E) as [Hin He].
      destruct (check_password check u password) eqn:Hc.
      * split; [reflexivity|]. split; [|split; [|split]].
        -- intros u0 _ Hin0 He0 Huniq _.
           rewrite <- (Huniq u Hin He). reflexivity.
        -- intros _ Hall. rewrite (Hall u Hin He) in Hc. discriminate.
        -- discriminate.
        -- left. exists u. repeat split; assumption.
      * split; [reflexivity|]. split; [|split; [|split]].
        -- intros u0 _ Hin0 He0 Huniq Hc0.
           rewrite (Huniq u Hin He) in Hc. congruence.
        -- reflexivity.
        -- discriminate.
        -- right. left. split; reflexivity.
    + split; [reflexivity|]. split; [|split; [|split]].
      * intros u0 _ Hin0 He0 _ _. exfalso.
        destruct (find_exists (fun x => str_eqb (User.email x) email) (users st) u0
                    Hin0) as (y & Hy).
        { apply str_eqb_eq. exact He0. }
        unfold first_by_email in E. congruence.
      * reflexivity.
      * discriminate.
      * right. left. split; reflexivity.
  - split; [reflexivity|]. split; [|split; [|split]].
    + discriminate.
    + discriminate.
    + reflexivity.
    + right. right. split; reflexivity.
Qed.

Lemma login_is_sound_witness :
  login lower_ascii toy_check toy_csrf (POST ann_login_form)
    {| users := [ {| User.id := 1; User.email := lit "ann@example.com";
                     User.password_hash := lit "s1$secret1" |} ];
       session := None |}
  = (Redirected "create_data" [(lit "Logged in.", success)],
     {| users := [ {| User.id := 1; User.email := lit "ann@example.com";
                      User.password_hash := lit "s1$secret1" |} ];
        session := Some 1 |}).
Proof.
  refine (proj1 (proj2 (login_is_sound lower_ascii toy_check toy_csrf
                          (POST ann_login_form)
                          {| users := [ {| User.id := 1;
                                           User.email := lit "ann@example.com";
                                           User.password_hash := lit "s1$secret1" |} ];
                             session := None |}))
            {| User.id := 1; User.email := lit "ann@example.com";
               User.password_hash := lit "s1$secret1" |} _ _ _ _ _).
  - reflexivity.
  - left. reflexivity.
  - reflexivity.
  - intros u' [<-|[]] _. reflexivity.
  - reflexivity.
Defined.

(** X25: a registration form is refused, with nothing stored and nobody
    logged in, when it is sent by GET, fails the token check, has a missing
    or blank email or one of more than 150 characters, or has a missing or
    blank password or one of fewer than six characters; the form is shown
    again. *)
Theorem register_refuses_invalid_form :
  forall (lower : str -> str) (Salt : Type)
         (generate_password_hash : Salt -> str -> str)
         (csrf_valid : Form -> bool) (salt : Salt) (method : Method)
         (st : Accounts),
    match method with
    | GET => True
    | POST form =>
        csrf_valid form = false
        \/ match form_get form "email" with
           | Some e => Py.strip e = [] \/ 150 < Py.len e
           | None => True
           end
        \/ match form_get form "password" with
           | Some p => Py.strip p = [] \/ Py.len p < 6
           | None => True
           end
    end ->
    register lower generate_password_hash csrf_valid salt method st
    = (Rendered "register.html" [], st).
Proof.
  intros lower Salt gen csrf salt method st H. unfold register.
  replace (RegisterForm_validate_on_submit csrf method) with false; [reflexivity|].
  symmetry. destruct method as [|form]; [reflexivity|]. simpl.
  destruct H as [H | [H | H]].
  - rewrite H. reflexivity.
  - apply andb_false_intro1, andb_false_intro2.
    destruct (form_get form "email") as [e|]; [|reflexivity].
    unfold DataRequired, Length. destruct H as [H|H].
    + rewrite H. simpl. rewrite andb_false_r. reflexivity.
    + apply andb_false_intro2, andb_false_intro2.
      simpl. apply Z.leb_gt. exact H.
  - apply andb_false_intro2.
    destruct (form_get form "password") as [p|]; [|reflexivity].
    unfold DataRequired, Length. destruct H as [H|H].
    + rewrite H. simpl. rewrite andb_false_r. reflexivity.
    + apply andb_false_intro2, andb_false_intro1. apply Z.leb_gt. exact H.
Qed.

Lemma register_refuses_invalid_form_witness :
  register lower_ascii toy_hash toy_csrf (lit "s1")
    (POST [("csrf_token"%string, lit "ok"); ("email"%string, lit "ann@example.com");
           ("password"%string, lit "12345")]) no_accounts
  = (Rendered "register.html" [], no_accounts).
Proof.
  apply (register_refuses_invalid_form lower_ascii (list char) toy_hash toy_csrf
           (lit "s1")
           (POST [("csrf_token"%string, lit "ok");
                  ("email"%string, lit "ann@example.com");
                  ("password"%string, lit "12345")]) no_accounts).
  right. right. right. reflexivity.
Defined.

(** X26: where the start page leads.  After a logout it leads to the login
    page, whoever was logged in; after a registration or a login that
    answered with the redirect to create-data it leads to create-data. *)
Theorem index_follows_the_session :
  forall (lower : str -> str) (Salt : Type)
         (generate_password_hash : Salt -> str -> str)
         (check_password_hash : str -> str -> bool)
         (csrf_valid : Form -> bool) (unauthorized : Page) (salt : Salt)
         (method : Method) (st : Accounts),
    index (snd (logout unauthorized st)) = Redirected "login" []
    /\ (forall flashed,
           fst (register lower generate_password_hash csrf_valid salt method st)
           = Redirected "create_data" flashed ->
           index (snd (register lower generate_password_hash csrf_valid salt method st))
           = Redirected "create_data" [])
    /\ (forall flashed,
           fst (login lower check_password_hash csrf_valid method st)
           = Redirected "create_data" flashed ->
           index (snd (login lower check_password_hash csrf_valid method st))
           = Redirected "create_data" []).
Proof.
  intros lower Salt gen check csrf unauthorized salt method st.
  split; [|split].
  - unfold logout, index.
    destruct (is_authenticated st) eqn:E; simpl; [reflexivity|].
    rewrite E. reflexivity.
  - intros flashed. unfold register.
    destruct (RegisterForm_validate_on_submit csrf method); [|discriminate].
    destruct (first_by_email _ _); [discriminate|].
    intros _. unfold index, is_authenticated, get_user. simpl.
    rewrite find_app_none by apply get_user_fresh.
    simpl. rewrite Z.eqb_refl. reflexivity.
  - intros flashed. unfold login.
    destruct (LoginForm_validate_on_submit csrf method); [|discriminate].
    destruct (first_by_email _ _) as [u|] eqn:E; [|discriminate].
    destruct (check_password _ _ _); [|discriminate].
    intros _. unfold index, is_authenticated, get_user. simpl.
    destruct (first_by_email_some _ _ _ E) as [Hin _].
    destruct (find_exists (fun x => User.id x =? User.id u) (users st) u Hin
                (Z.eqb_refl _)) as (y & Hy).
    rewrite Hy. reflexivity.
Qed.

Lemma index_follows_the_session_witness :
  index (snd (register lower_ascii toy_hash toy_csrf (lit "s1") (POST ann_form)
                no_accounts))
  = Redirected "create_data" [].
Proof.
  refine (proj1 (proj2 (index_follows_the_session lower_ascii (list char) toy_hash
                          toy_check toy_csrf (Rendered "login.html" []) (lit "s1")
                          (POST ann_form) no_accounts)) _ _).
  reflexivity.
Defined.

Lemma sorted_lt_NoDup (l : list Z) : StronglySorted Z.lt l -> NoDup l.
Proof.
  induction 1 as [|a l Hs IH Hall]; constructor; [|exact IH].
  intros Hin. rewrite Forall_forall in Hall. specialize (Hall a Hin). lia.
Qed.

Lemma NoDup_map_eq {A} (f : A -> Z) (l : list A) (x y : A) :
  NoDup (map f l) -> In x l -> In y l -> f x = f y -> x = y.
Proof.
  induction l as [|a l IH]; simpl; [tauto|].
  intros Hnd. inversion Hnd as [|? ? Hnotin Hnd']; subst.
  intros [->|Hx] [->|Hy] E; auto.
  - exfalso. apply Hnotin. rewrite E. apply in_map. exact Hy.
  - exfalso. apply Hnotin. rewrite <- E. apply in_map. exact Hx.
Qed.

(** X27: [load_user] finds accounts by id.  On a reachable user table, an id
    string that parses to a number SQLite can bind gives the account with
    that id, or no user when no account has it; one that parses to a number
    SQLite cannot bind raises OverflowError; and one that does not parse
    raises ValueError. *)
Theorem load_user_by_id :
  forall (lower : str -> str) (Salt : Type)
         (generate_password_hash : Salt -> str -> str)
         (check_password_hash : str -> str -> bool)
         (csrf_valid : Form -> bool) (unauthorized : Page)
         (int_of_str : str -> option Z) (st : Accounts) (user_id : str),
    accounts_reachable lower generate_password_hash check_password_hash
      csrf_valid unauthorized st ->
    match int_of_str user_id with
    | None => load_user int_of_str (users st) user_id = Raise ValueError
    | Some i =>
        if sqlite_integer i then
          (forall u, In u (users st) -> User.id u = i ->
                     load_user int_of_str (users st) user_id = Ok (Some u))
          /\ ((forall u, In u (users st) -> User.id u <> i) ->
              load_user int_of_str (users st) user_id = Ok None)
        else load_user int_of_str (users st) user_id = Raise OverflowError
    end.
Proof.
  intros lower Salt gen check csrf unauthorized int st user_id Hreach.
  unfold load_user. destruct (int user_id) as [i|]; [|reflexivity].
  destruct (sqlite_integer i); [|reflexivity].
  pose proof (accounts_reachable_ids lower Salt gen check csrf unauthorized
                st Hreach) as Hids.
  assert (Hnodup : NoDup (map User.id (users st))).
  { rewrite Hids. apply sorted_lt_NoDup, seq_ids_sorted. }
  split.
  - intros u Hin Hid. f_equal. unfold get_user.
    destruct (find_exists (fun x => User.id x =? i) (users st) u Hin) as (y & Hy);
      [apply Z.eqb_eq; exact Hid|].
    rewrite Hy. f_equal.
    apply find_some in Hy. destruct Hy as [Hyin Hyid]. apply Z.eqb_eq in Hyid.
    apply (NoDup_map_eq User.id (users st)); try assumption. congruence.
  - intros Hnone. f_equal. unfold get_user. apply find_all_false.
    intros u Hu. apply Z.eqb_neq. apply Hnone. exact Hu.
Qed.

Lemma load_user_by_id_witness :
  accounts_reachable lower_ascii toy_hash toy_check toy_csrf (Rendered "login.html" [])
    (accounts_run lower_ascii toy_hash toy_check toy_csrf (Rendered "login.html" [])
       [Register (lit "s1") (POST ann_form); Logout] no_accounts)
  /\ load_user int_ascii
       (users (accounts_run lower_ascii toy_hash toy_check toy_csrf
                 (Rendered "login.html" [])
                 [Register (lit "s1") (POST ann_form); Logout] no_accounts))
       (lit "1")
     = Ok (Some {| User.id := 1; User.email := lit "ann@example.com";
                   User.password_hash := lit "s1$secret1" |})
  /\ load_user int_ascii
       (users (accounts_run lower_ascii toy_hash toy_check toy_csrf
                 (Rendered "login.html" [])
                 [Register (lit "s1") (POST ann_form); Logout] no_accounts))
       (lit "9223372036854775808")
     = Raise OverflowError.
Proof.
  assert (Hreach :
            accounts_reachable lower_ascii toy_hash toy_check toy_csrf
              (Rendered "login.html" [])
              (accounts_run lower_ascii toy_hash toy_check toy_csrf
                 (Rendered "login.html" [])
                 [Register (lit "s1") (POST ann_form); Logout] no_accounts)).
  { eexists. reflexivity. }
  split; [exact Hreach|]. split.
  - refine (proj1 (load_user_by_id lower_ascii (list char) toy_hash toy_check toy_csrf
                     (Rendered "login.html" []) int_ascii _ (lit "1") Hreach) _ _ _).
    + left. reflexivity.
    + reflexivity.
  - exact (load_user_by_id lower_ascii (list char) toy_hash toy_check toy_csrf
             (Rendered "login.html" []) int_ascii _ (lit "9223372036854775808")
             Hreach).
Defined.
